(** * Limb-darkening correction of solar images: [darklimb.py]

    A shallow embedding of [darklimb.py] (functions [darklimb], with its
    nested [darklimb_u] and [darklimb_v], [writefits], and the script
    that calls them) and the properties its specification states about
    it.

    The program computes with numpy [float64] values.  It is translated
    once, over an interface [Float64] of the operations it uses, and read
    in two number systems:
    - [binary64]: IEEE 754 double precision, what Python and numpy
      execute, over the functions they take from the C library.  What
      is stated of the numbers that the program returns is stated in
      this reading;
    - [exact]: the real numbers, the arithmetic in which the formulas of
      the specification are written.  It has no rounding, no overflow
      and no nan: it is consulted for the formulas only (continuity,
      bounds, monotonicity), and the integers it computes need not be
      those of the program. *)

From Stdlib Require Import ZArith Reals Lra Lia.
From Stdlib Require Floats.PrimFloat Floats.FloatOps Floats.SpecFloat.
From Stdlib Require Floats.FloatAxioms.
From Stdlib Require QArith.QArith QArith.Qround.
From stdpp Require Import base strings list gmap.

Set Warnings "-inexact-float".

(** ** Exceptions and results *)

(** The exceptions the modelled code can raise.  The code has no
    [try]/[except]: the first one raised ends the call. *)
Inductive exn : Type :=
| KeyError (key : string)  (* [head['K']] with ['K'] absent *)
| ZeroDivisionError        (* Python [/] on scalars with a zero divisor *)
| ValueError               (* [np.max] of an empty array, shapes that do
                              not broadcast, [int(nan)], [arange] to nan *)
| OverflowError            (* [int(inf)], [x ** k] beyond the largest
                              float *)
| CastingError             (* [uint32_array *= k] with [k] outside uint32 *)
| OSError.                 (* [save] on an existing path without overwrite *)

Inductive result (A : Type) : Type :=
| Ok (a : A)
| Raise (e : exn).
Arguments Ok {A} a.
Arguments Raise {A} e.

Definition is_Ok {A} (r : result A) : bool :=
  match r with
  | Ok _ => true
  | Raise _ => false
  end.

#[global] Instance result_ret : MRet result := fun A a => Ok a.
#[global] Instance result_fmap : FMap result := fun A B f m =>
  match m with
  | Ok a => Ok (f a)
  | Raise e => Raise e
  end.
#[global] Instance result_bind : MBind result := fun A B f m =>
  match m with
  | Ok a => f a
  | Raise e => Raise e
  end.

(** ** The [float64] interface *)

(** The operations of [float64] that the program uses.  [fpow] is
    Python's [**] on a float with a small literal exponent, [of_dec m e]
    the decimal literal [m]e[e], [ftrunc] truncation towards zero (absent
    on nan and the infinities), [fltb] and [feqb] the IEEE comparisons. *)
Class Float64 (F : Type) : Type := {
  fadd : F → F → F;
  fsub : F → F → F;
  fmul : F → F → F;
  fdiv : F → F → F;
  fsqrt : F → F;
  fcos : F → F;
  farcsin : F → F;
  fpow : F → nat → F;
  feqb : F → F → bool;
  fltb : F → F → bool;
  fisnan : F → bool;
  of_Z : Z → F;
  of_dec : Z → Z → F;
  ftrunc : F → option Z;
}.

(** ** Arrays *)

(** A two-dimensional [ndarray]: its shape and its indexing function.
    [item a i j] is [a[i][j]] (row [i], column [j]) and is meaningful for
    [i < nrows a] and [j < ncols a]. *)
Record ndarray (A : Type) : Type := NdArray {
  nrows : nat;
  ncols : nat;
  item : nat → nat → A;
}.
Arguments NdArray {A} nrows ncols item.
Arguments nrows {A} _.
Arguments ncols {A} _.
Arguments item {A} _ _ _.

Definition shape {A} (a : ndarray A) : nat * nat := (nrows a, ncols a).

(** An elementwise operation of one array. *)
Definition amap {A B} (f : A → B) (a : ndarray A) : ndarray B :=
  NdArray (nrows a) (ncols a) (fun i j => f (item a i j)).

(** The elements in C order, as a reduction visits them. *)
Definition elements {A} (a : ndarray A) : list A :=
  flat_map (fun i => map (item a i) (seq 0 (ncols a))) (seq 0 (nrows a)).

(** numpy's broadcasting of one dimension: equal lengths, or one of them
    is 1 and is stretched. *)
Definition broadcast_dim (m n : nat) : option nat :=
  if (m =? n)%nat then Some m
  else if (m =? 1)%nat then Some n
  else if (n =? 1)%nat then Some m
  else None.

Definition stretch (len i : nat) : nat := if (len =? 1)%nat then 0%nat else i.

(** An elementwise operation of two arrays, with broadcasting. *)
Definition broadcast {A B C} (f : A → B → C) (a : ndarray A) (b : ndarray B)
  : result (ndarray C) :=
  match broadcast_dim (nrows a) (nrows b), broadcast_dim (ncols a) (ncols b) with
  | Some r, Some c =>
      Ok (NdArray r c (fun i j =>
            f (item a (stretch (nrows a) i) (stretch (ncols a) j))
              (item b (stretch (nrows b) i) (stretch (ncols b) j))))
  | _, _ => Raise ValueError
  end.

(** [np.array(rows)] of a list of rows of one length. *)
Definition of_rows {A} (default : A) (rows : list (list A)) : ndarray A :=
  NdArray (length rows) (length (hd [] rows))
          (fun i j => nth j (nth i rows []) default).

(** A sunpy map: the pixel grid and the header, a dictionary from FITS
    keywords to numbers. *)
Record GenericMap (A F : Type) : Type := Map {
  data : ndarray A;
  meta : gmap string F;
}.
Arguments Map {A F} data meta.
Arguments data {A F} _.
Arguments meta {A F} _.

(** [head['K']] *)
Definition getitem {F} (head : gmap string F) (key : string) : result F :=
  match head !! key with
  | Some x => Ok x
  | None => Raise (KeyError key)
  end.

(** ** The program, over any reading of [float64] *)

Section Darklimb.
Context {F : Type} `{Float64 F}.

(** Python's builtin [sum]: starts from the integer 0 and adds from the
    left. *)
Definition py_sum (l : list F) : F := fold_left fadd l (of_Z 0).

(** Whether a [float64] is finite, and whether it is an infinity:
    truncation is defined on the finite values and on no other. *)
Definition finite (x : F) : bool :=
  match ftrunc x with
  | Some _ => true
  | None => false
  end.

Definition infinite (x : F) : bool := negb (finite x) && negb (fisnan x).

(** Python's [x ** k] on a float [x] and a literal [k] that is not 0:
    the [pow] of the C library, and [OverflowError] when the power of a
    finite [x] is an infinity.  (Python answers nan, the infinities, the
    zeros, 1 and -1 itself, with the values that C gives [pow] there, and
    calls [pow] on the absolute value of any other [x]; an underflow to
    zero is no error.) *)
Definition py_pow (x : F) (k : nat) : result F :=
  let y := fpow x k in
  if finite x && infinite y then Raise OverflowError else Ok y.

(** The list of line 68, and of line 80: the powers of [ll], computed
    from the left. *)
Definition powers (ll : F) : result (list F) :=
  ll2 ← py_pow ll 2;
  ll3 ← py_pow ll 3;
  ll4 ← py_pow ll 4;
  ll5 ← py_pow ll 5;
  Ok [of_Z 1; ll; ll2; ll3; ll4; ll5].

(** [darklimb_u], lines 67-77. *)
Definition darklimb_u (ll : F) : result F :=
  pll ← powers ll;
  let au := of_dec (-89829751) (-7) in    (* -8.9829751 *)
  let bu := of_dec 69093916 (-10) in      (* 0.0069093916 *)
  let cu := of_dec (-18144591) (-13) in   (* -1.8144591e-6 *)
  let du := of_dec 22540875 (-17) in      (* 2.2540875e-10 *)
  let eu := of_dec (-13389747) (-21) in   (* -1.3389747e-14 *)
  let fu := of_dec 30453572 (-26) in      (* 3.0453572e-19 *)
  let a := [au; bu; cu; du; eu; fu] in
  let ul := py_sum (zip_with fmul a pll) in
  Ok ul.

(** [darklimb_v], lines 79-89. *)
Definition darklimb_v (ll : F) : result F :=
  pll ← powers ll;
  let av := of_dec 92891180 (-7) in       (* 9.2891180 *)
  let bv := of_dec (-62212632) (-10) in   (* -0.0062212632 *)
  let cv := of_dec 15788029 (-13) in      (* 1.5788029e-6 *)
  let dv := of_dec (-19359644) (-17) in   (* -1.9359644e-10 *)
  let ev := of_dec 11444469 (-21) in      (* 1.1444469e-14 *)
  let fv := of_dec (-2599494) (-25) in    (* -2.599494e-19 *)
  let a := [av; bv; cv; dv; ev; fv] in
  let vl := py_sum (zip_with fmul a pll) in
  Ok vl.

(** Python's [/] on two scalars. *)
Definition py_truediv (a b : F) : result F :=
  if feqb b (of_Z 0) then Raise ZeroDivisionError else Ok (fdiv a b).

(** Python's [int(x)]: truncation towards zero. *)
Definition py_int (x : F) : result Z :=
  match ftrunc x with
  | Some t => Ok t
  | None => Raise (if fisnan x then ValueError else OverflowError)
  end.

(** [np.maximum]: a nan operand wins. *)
Definition maximum (a b : F) : F :=
  if fisnan a then a else if fisnan b then b else if fltb a b then b else a.

(** [np.max(a)]. *)
Definition np_max (a : ndarray F) : result F :=
  match elements a with
  | [] => Raise ValueError
  | x :: l => Ok (fold_left maximum l x)
  end.

(** [np.nanmax(a)]: the maximum of the elements that are not nan; of an
    array of nans only, a nan (numpy warns and goes on). *)
Definition np_nanmax (a : ndarray F) : result F :=
  match elements a with
  | [] => Raise ValueError
  | x :: l =>
      match List.filter (fun y => negb (fisnan y)) (x :: l) with
      | [] => Ok x
      | y :: l' => Ok (fold_left maximum l' y)
      end
  end.

(** The length of [np.arange(0, size, 1)]: the ceiling of [size], and 0
    when that is negative. *)
Definition arange_len (size : F) : result nat :=
  match ftrunc size with
  | Some t => Ok (Z.to_nat (if fltb (of_Z t) size then t + 1 else t))
  | None => Raise ValueError
  end.

(** The cast of one [float64] to [uint32] that
    [np.array(..., dtype='uint32')] performs: truncation towards zero
    for a value in [0, 2^32).  C leaves the conversion of any other
    value undefined; the x86-64 result is modelled (the 64-bit
    truncation reduced modulo 2^32, and 0 when even that is out of
    range or the value is nan). *)
Definition cast_uint32 (x : F) : Z :=
  match ftrunc x with
  | Some t =>
      if ((- 2 ^ 63 <=? t) && (t <? 2 ^ 63))%Z then (t mod 2 ^ 32)%Z else 0%Z
  | None => 0%Z
  end.

(** [imgout *= k] on a [uint32] array and a Python integer [k]: the
    product wraps around; numpy refuses a [k] that is not itself a
    [uint32]. *)
Definition imul_uint32 (a : ndarray Z) (k : Z) : result (ndarray Z) :=
  if ((0 <=? k) && (k <? 2 ^ 32))%Z
  then Ok (amap (fun p => (p * k) mod 2 ^ 32)%Z a)
  else Raise CastingError.

(** The header parameters, lines 99-106. *)
Record parameters : Type := Parameters {
  wavelength : F;
  xcen : F;
  ycen : F;
  radius : F;
  size : F;
  bzero : F;
  blank : F;
  bscale : F;
}.

Definition read_parameters (head : gmap string F) : result parameters :=
  wavelength ← getitem head "WAVELNTH";
  xcen ← getitem head "CRPIX1";
  ycen ← getitem head "CRPIX2";
  rsun_obs ← getitem head "RSUN_OBS";
  cdelt1 ← getitem head "CDELT1";
  radius ← py_truediv rsun_obs cdelt1;
  size ← getitem head "NAXIS1";
  bzero ← getitem head "BZERO";
  blank ← getitem head "BLANK";
  bscale ← getitem head "BSCALE";
  Ok (Parameters wavelength xcen ycen radius size bzero blank bscale).

(** One pixel of [array], lines 110-112: [1e4*data/np.max(data)], and 0
    where [data < -10]. *)
Definition rescale (mx d : F) : F :=
  if fltb d (of_Z (-10)) then of_Z 0 else fdiv (fmul (of_Z 10000) d) mx.

(** [array] after line 112. *)
Definition rescaled (data : ndarray F) : result (ndarray F) :=
  mx ← np_max data;
  Ok (amap (rescale mx) data).

(** [np.meshgrid] of two [arange]s of length [n], line 120. *)
Definition meshgrid_xx (n : nat) : ndarray F :=
  NdArray n n (fun _ j => of_Z (Z.of_nat j)).
Definition meshgrid_yy (n : nat) : ndarray F :=
  NdArray n n (fun i _ => of_Z (Z.of_nat i)).

(** [x**2] on an array. *)
Definition sq (x : F) : F := fmul x x.

(** One pixel of [z], line 124. *)
Definition radial_distance (xcen ycen x y : F) : F :=
  fsqrt (fadd (sq (fsub x xcen)) (sq (fsub y ycen))).

(** One pixel of [grid], lines 126-128: the normalised radius, and 0
    where that is greater than 1. *)
Definition clamp (g : F) : F := if fltb (of_Z 1) g then of_Z 0 else g.

(** One pixel of [limbfilt], lines 130-131, from its pixel of [grid]. *)
Definition limb (ul vl g : F) : F :=
  let c := fcos (farcsin g) in
  fadd (fadd (fsub (fsub (of_Z 1) ul) vl) (fmul ul c)) (fmul vl (sq c)).

(** The array [grid] after line 128 and the array [limbfilt]. *)
Definition grid (p : parameters) (n : nat) : ndarray F :=
  NdArray n n (fun i j =>
    clamp (fdiv (radial_distance (xcen p) (ycen p)
                      (item (meshgrid_xx n) i j) (item (meshgrid_yy n) i j))
                (radius p))).

Definition limbfilt (ul vl : F) (p : parameters) (n : nat) : ndarray F :=
  amap (limb ul vl) (grid p n).

(** The pixel of [grid] after line 126, before the clamp: the
    normalised radial distance [z / radius] of pixel [i], [j]. *)
Definition normalised_radius (p : parameters) (i j : nat) : F :=
  fdiv (radial_distance (xcen p) (ycen p)
                        (of_Z (Z.of_nat j)) (of_Z (Z.of_nat i)))
       (radius p).

(** The correction factor as a function of the normalised radius:
    lines 127-131 on one pixel. *)
Definition factor (ul vl g : F) : F := limb ul vl (clamp g).

(** The three assignments to [mapa.meta], lines 135-137. *)
Definition restore_scaling (p : parameters) (head : gmap string F)
  : gmap string F :=
  <["BSCALE" := bscale p]> (<["BLANK" := blank p]> (<["BZERO" := bzero p]> head)).

(** Lines 108 and 115-116 alone: the two coefficients of a wavelength. *)
Definition coefficients (wavelength : F) : result (F * F) :=
  let ll := fmul (of_Z 1) wavelength in
  ul ← darklimb_u ll;
  vl ← darklimb_v ll;
  Ok (ul, vl).

(** [darklimb], lines 93-140, from the map that [Map(name)] loaded.
    The result is the pair the function returns: the corrected map and
    [mapa] itself, whose header the function has assigned to.  The steps
    are in the order of the lines, the first exception ends the call:
    [KeyError] and [ZeroDivisionError] from lines 99-106, [ValueError]
    from [np.max] of line 110, [OverflowError] from lines 115-116,
    [ValueError] from lines 118 and 134, the exceptions of [int] and of
    [*=] from line 138.  Arrays of any size can be built: the memory of
    the machine is outside the model. *)
Definition darklimb (mapa : GenericMap F F)
  : result (GenericMap Z F * GenericMap F F) :=
  let head := meta mapa in
  p ← read_parameters head;
  let ll := fmul (of_Z 1) (wavelength p) in
  array ← rescaled (data mapa);
  ul ← darklimb_u ll;
  vl ← darklimb_v ll;
  n ← arange_len (size p);
  quotient ← broadcast fdiv array (limbfilt ul vl p n);
  let imgout := amap cast_uint32 quotient in
  let head' := restore_scaling p head in
  nmx ← np_nanmax (data mapa);
  k ← py_int (fmul (of_dec 1 (-4)) nmx);
  imgout' ← imul_uint32 imgout k;
  Ok (Map imgout' head', Map (data mapa) head').

End Darklimb.

(** ** The exact reading: real numbers *)

Module Exact.

(** Truncation towards zero of a real number. *)
Definition R_trunc (x : R) : Z :=
  if Rle_dec 0 x then Int_part x else (- Int_part (- x))%Z.

(** The real numbers as [float64] without rounding.  There is no nan
    and no overflow.  Where numpy yields nan or an infinity (a zero
    divisor, the square root of a negative number, [arcsin] beyond 1) the
    total functions of the library yield some real number, and where the
    program rounds, this reading does not: an integer taken from a
    rounded value ([int], the cast to [uint32]) can differ by one from
    the integer of the exact value.  The [binary64] reading is the one
    to consult for what the program returns. *)
#[export] Instance exact : Float64 R := {|
  fadd := Rplus;
  fsub := Rminus;
  fmul := Rmult;
  fdiv := Rdiv;
  fsqrt := sqrt;
  fcos := cos;
  farcsin := asin;
  fpow := pow;
  feqb := fun x y => if Req_dec_T x y then true else false;
  fltb := fun x y => if Rlt_dec x y then true else false;
  fisnan := fun _ => false;
  of_Z := IZR;
  of_dec := fun m e => (IZR m * powerRZ 10 e)%R;
  ftrunc := fun x => Some (R_trunc x);
|}.

(** The factor inside the disk as the specification writes it, with
    [sqrt(1 - x^2)] for [cos(arcsin x)], as a function on the whole line. *)
Definition inside (ul vl g : R) : R :=
  (1 - ul - vl + ul * sqrt (1 - g * g) + vl * (1 - g * g))%R.

End Exact.

(** ** The IEEE 754 reading: binary64 *)

Module Binary64.
Import PrimFloat FloatOps SpecFloat.

(** The nearest binary64 number to the decimal [m]e[e], ties to even,
    as a compiler reads a literal (for a value in the normal range). *)
Definition round_dec (m e : Z) : float :=
  if (m =? 0)%Z then 0%float else
  let a := Z.abs m in
  let num := (if 0 <=? e then a * 10 ^ e else a)%Z in
  let den := (if 0 <=? e then 1 else 10 ^ (- e))%Z in
  let k := (Z.log2 num - Z.log2 den - 53)%Z in
  let n' := (if 0 <=? k then num else num * 2 ^ (- k))%Z in
  let d' := (if 0 <=? k then den * 2 ^ k else den)%Z in
  let wide := (2 ^ 53 <=? n' / d')%Z in
  let d'' := (if wide then 2 * d' else d')%Z in
  let k' := (if wide then k + 1 else k)%Z in
  let q := (n' / d'')%Z in
  let r := (n' mod d'')%Z in
  let up := ((d'' <? 2 * r) || ((d'' =? 2 * r) && Z.odd q))%Z in
  let q' := (if up then q + 1 else q)%Z in
  SF2Prim (S754_finite (m <? 0)%Z (Z.to_pos q') k').

(** Truncation towards zero; nothing for nan and the infinities. *)
Definition SF_trunc (x : spec_float) : option Z :=
  match x with
  | S754_zero _ => Some 0%Z
  | S754_finite s m e =>
      let a := (if 0 <=? e then Zpos m * 2 ^ e else Zpos m / 2 ^ (- e))%Z in
      Some (if s then (- a)%Z else a)
  | _ => None
  end.

Definition trunc (x : float) : option Z := SF_trunc (Prim2SF x).

(** What [k] steps of [shr_1] from the exact mantissa [M] have kept: the
    shifted mantissa, the bit shifted out last, and whether anything
    below it was lost. *)
Definition shr_inv (M : Z) (k : nat) (mrs : shr_record) : Prop :=
  (0 <= shr_m mrs)%Z /\
  exists t, (0 <= t < 2 ^ Z.of_nat k)%Z /\
    (2 * M = shr_m mrs * 2 ^ (Z.of_nat k + 1)
            + (if shr_r mrs then 2 ^ Z.of_nat k else 0) + t)%Z /\
    (shr_s mrs = false -> t = 0%Z).


(** The functions the program takes from the C library: [np.cos],
    [np.arcsin], and the [pow] behind Python's [**]. *)
Record libm : Type := Libm {
  libm_cos : float → float;
  libm_arcsin : float → float;
  libm_pow : float → nat → float;
}.

(** A positive number as an odd number times a power of two. *)
Fixpoint odd_part (p : positive) : positive * Z :=
  match p with
  | xO p' => let (o, t) := odd_part p' in (o, (t + 1)%Z)
  | _ => (p, 0%Z)
  end.

(** Whether the [k]-th power of [x] is a binary64 number: then every
    partial product is one as well, and repeated multiplication does
    not round. *)
Definition exact_power (x : float) (k : nat) : bool :=
  match Prim2SF x with
  | S754_zero _ => true
  | S754_finite _ m e =>
      let (o, t) := odd_part m in
      let e' := ((e + t) * Z.of_nat k)%Z in
      ((Zpos o ^ Z.of_nat k <? 2 ^ 53) && (-1074 <=? e') && (e' <=? 970))%Z
  | _ => false
  end.

Definition power (x : float) (k : nat) : float := Nat.iter k (mul x) 1%float.

(** What is assumed of the C library: the values that every
    implementation returns exactly. *)
Record libm_exact (m : libm) : Prop := {
  arcsin_zero : libm_arcsin m 0%float = 0%float;
  cos_zero : libm_cos m 0%float = 1%float;
  pow_exact : ∀ x k, exact_power x k = true → libm_pow m x k = power x k;
}.

(** binary64 over a C library. *)
Definition binary64 (m : libm) : Float64 float := {|
  fadd := add;
  fsub := sub;
  fmul := mul;
  fdiv := div;
  fsqrt := sqrt;
  fcos := libm_cos m;
  farcsin := libm_arcsin m;
  fpow := libm_pow m;
  feqb := eqb;
  fltb := ltb;
  fisnan := is_nan;
  of_Z := fun z => round_dec z 0;
  of_dec := round_dec;
  ftrunc := trunc;
|}.

(** The C library reduced to the values it is assumed to return
    exactly, and nan anywhere else. *)
Definition exact_points : libm := {|
  libm_cos := fun x => if (x =? 0)%float then 1%float else nan;
  libm_arcsin := fun x => if (x =? 0)%float then x else nan;
  libm_pow := fun x k => if exact_power x k then power x k else nan;
|}.

(** Whether the [k]-th power of [x] is beyond the largest float: its
    absolute value [m^k * 2^(e*k)] is not below [2^1024]. *)
Definition power_overflows (x : float) (k : nat) : bool :=
  match Prim2SF x with
  | S754_finite _ m e =>
      (2 ^ (1024 - e * Z.of_nat k) <=? Zpos m ^ Z.of_nat k)%Z
  | _ => false
  end.

(** The library [exact_points] with one more value that every C library
    returns: the infinity, for a power beyond the largest float. *)
Definition exact_or_infinite : libm := {|
  libm_cos := libm_cos exact_points;
  libm_arcsin := libm_arcsin exact_points;
  libm_pow := fun x k =>
    if exact_power x k then power x k
    else if power_overflows x k
         then (if get_sign x && Nat.odd k then neg_infinity else infinity)
         else nan;
|}.

End Binary64.

(** ** The number a binary64 value stands for *)

Module Values.
Import PrimFloat FloatOps SpecFloat QArith_base Qround.

(** The rational number of a finite value: [m * 2^e], with its sign. *)
Definition SF2Q (x : spec_float) : option Q :=
  match x with
  | S754_zero _ => Some (inject_Z 0)
  | S754_finite s m e =>
      let a := if (0 <=? e)%Z then inject_Z (Zpos m * 2 ^ e)
               else Qmake (Zpos m) (Z.to_pos (2 ^ (- e))) in
      Some (if s then Qopp a else a)
  | _ => None
  end.

Definition value (x : float) : option Q := SF2Q (Prim2SF x).

(** Truncation towards zero of a rational number: its floor when it is
    not negative, its ceiling when it is. *)
Definition Qtrunc (v : Q) : Z :=
  if Qle_bool (inject_Z 0) v then Qfloor v else Qceiling v.

End Values.

(** ** [writefits] *)

(** Python's [s.replace(old, new)]: scanning from the left, every
    occurrence of [old] that does not overlap the one before it is
    replaced.  [skip] counts the characters of the current occurrence
    still to pass over. *)
Fixpoint replace_from (old new : string) (skip : nat) (s : string) : string :=
  match s with
  | EmptyString => EmptyString
  | String c s' =>
      match skip with
      | S k => replace_from old new k s'
      | O =>
          if String.prefix old s
          then new +:+ replace_from old new (String.length old - 1) s'
          else String c (replace_from old new 0 s')
      end
  end.

(** With an empty [old], Python puts [new] before every character and at
    the end. *)
Fixpoint insert_everywhere (new s : string) : string :=
  match s with
  | EmptyString => new
  | String c s' => new +:+ String c (insert_everywhere new s')
  end.

Definition str_replace (old new s : string) : string :=
  match old with
  | EmptyString => insert_everywhere new s
  | _ => replace_from old new 0 s
  end.

(** [image.save(name, overwrite=...)]: the files are a map from paths to
    contents.  What is modelled is the rule on a file that exists; a
    file system that refuses the write (no directory, no permission) is
    outside the model. *)
Definition save {A} (image : A) (name : string) (overwrite : bool)
    (files : gmap string A) : result (gmap string A) :=
  match files !! name with
  | Some _ => if overwrite then Ok (<[name := image]> files) else Raise OSError
  | None => Ok (<[name := image]> files)
  end.

(** The module constant of line 25. *)
Definition replace : string := ".fits".

(** [writefits], lines 27-38: the name it returns and the files after
    the call. *)
Definition writefits {A} (image : A) (name : string) (files : gmap string A)
  : result (string * gmap string A) :=
  let name := str_replace replace "_noLimbDark.fits" name in
  files' ← save image name true files;
  Ok (name, files').

(** Whether [old] occurs in [s]. *)
Fixpoint contains (old s : string) : bool :=
  String.prefix old s ||
  match s with
  | EmptyString => false
  | String _ s' => contains old s'
  end.

(** [s] without its suffix [suf], when it ends with it. *)
Fixpoint strip_suffix (suf s : string) : option string :=
  if String.eqb s suf then Some EmptyString
  else match s with
       | EmptyString => None
       | String c s' => String c <$> strip_suffix suf s'
       end.

(** The output name as the specification words it: the suffix [.fits]
    replaced by the marker suffix, the rest of the name untouched. *)
Definition suffix_replaced (name : string) : option string :=
  (fun base => base +:+ "_noLimbDark.fits") <$> strip_suffix ".fits" name.

(** ** Words of the specification about the coefficients *)

(** The polynomial of section 4.2, the sum of [coeff_i * x^i]. *)
Fixpoint polynomial_from (i : nat) (coeffs : list R) (x : R) : R :=
  match coeffs with
  | [] => 0%R
  | c :: coeffs' => (c * x ^ i + polynomial_from (S i) coeffs' x)%R
  end.

Definition polynomial : list R → R → R := polynomial_from 0.

(** The table of section 4.2. *)
Definition u_coefficients : list R :=
  [-8.9829751; 6.9093916e-3; -1.8144591e-6; 2.2540875e-10;
   -1.3389747e-14; 3.0453572e-19]%R.

Definition v_coefficients : list R :=
  [9.2891180; -6.2212632e-3; 1.5788029e-6; -1.9359644e-10;
   1.1444469e-14; -2.599494e-19]%R.

(** ** Words of the specification about the header *)

(** The keys of section 4.1, in the order lines 99-106 read them. *)
Definition required_keys : list string :=
  ["WAVELNTH"; "CRPIX1"; "CRPIX2"; "RSUN_OBS"; "CDELT1"; "NAXIS1";
   "BZERO"; "BLANK"; "BSCALE"].

Definition absent {F} (head : gmap string F) (key : string) : bool :=
  match head !! key with
  | None => true
  | Some _ => false
  end.

(** The first required key that the header lacks. *)
Definition first_absent {F} (head : gmap string F) : option string :=
  List.find (absent head) required_keys.

(** The division of line 102 is reached, and [CDELT1] is zero. *)
Definition zero_pixel_scale {F} `{Float64 F} (head : gmap string F) : bool :=
  forallb (fun key => negb (absent head key))
          ["WAVELNTH"; "CRPIX1"; "CRPIX2"; "RSUN_OBS"]
  && match head !! "CDELT1" with
     | Some cdelt1 => feqb cdelt1 (of_Z 0)
     | None => false
     end.

(** The image of section 3: a [n] by [n] grid, [n] the frame dimension
    [NAXIS1]. *)
Definition square_frame {F} `{Float64 F} (mapa : GenericMap F F) (n : nat) : Prop :=
  shape (data mapa) = (n, n) ∧
  ∃ naxis1, meta mapa !! "NAXIS1" = Some naxis1 ∧ arange_len naxis1 = Ok n.

(** ** Inputs used below *)

Module Inputs.
Import PrimFloat.
Local Open Scope float_scope.

(** A header with the disk centre on pixel (0, 0) and a solar radius of
    half a pixel: every other pixel of a frame is off the disk.  The
    frame is 2 by 2. *)
Definition header (wavelength : float) : gmap string float :=
  {[ "WAVELNTH" := wavelength; "CRPIX1" := 0; "CRPIX2" := 0;
     "RSUN_OBS" := 1; "CDELT1" := 2; "NAXIS1" := 2;
     "BZERO" := 0; "BLANK" := -32768; "BSCALE" := 1 ]}.

Definition bright : GenericMap float float :=
  Map (of_rows 0 [[20000; 5000]; [0; 10000]]) (header 171).

Definition all_zero : GenericMap float float :=
  Map (of_rows 0 [[0; 0]; [0; 0]]) (header 171).

(** A frame with a pixel between the sentinel threshold -10 and 0. *)
Definition with_negative : GenericMap float float :=
  Map (of_rows 0 [[10000; -5]; [0; 0]]) (header 171).

(** A header without [BZERO] whose pixel scale [CDELT1] is zero. *)
Definition header_zero_scale : gmap string float :=
  {[ "WAVELNTH" := 171; "CRPIX1" := 0; "CRPIX2" := 0;
     "RSUN_OBS" := 1; "CDELT1" := 0; "NAXIS1" := 2;
     "BLANK" := -32768; "BSCALE" := 1 ]}.

(** A frame of one row in a header of frame dimension 2. *)
Definition one_row : GenericMap float float :=
  Map (of_rows 0 [[20000; 10000]]) (header 171).

(** A frame whose maximum is less than 1e4. *)
Definition faint64 : GenericMap float float :=
  Map (of_rows 0 [[5000; 100]; [0; 2500]]) (header 171).

(** A frame whose maximum is the float before 30000,
    29999.999999999996. *)
Definition below_30000 : GenericMap float float :=
  Map (of_rows 0 [[0x1.d4bffffffffffp+14; 0]; [0; 0]]) (header 171).

(** A frame of one faint pixel, in the exact reading. *)
Definition faint : GenericMap R R :=
  Map (of_rows 0%R [[5000%R]])
      {[ "WAVELNTH" := 6173%R; "CRPIX1" := 0%R; "CRPIX2" := 0%R;
         "RSUN_OBS" := 1%R; "CDELT1" := 2%R; "NAXIS1" := 1%R;
         "BZERO" := 0%R; "BLANK" := (-32768)%R; "BSCALE" := 1%R ]}.

End Inputs.

(** Decimal literals of the program as real numbers. *)
Ltac norm_dec :=
  cbn [powerRZ];
  repeat match goal with
         | |- context [Pos.to_nat ?p] =>
             let t := eval compute in (Pos.to_nat p) in
             change (Pos.to_nat p) with t
         end.

(** ** More of the program: names, the script, header keys *)

(** Python's [s.count(old)] for a non-empty [old]: the occurrences that
    [replace_from] replaces, counted by the same scan. *)
Fixpoint count_from (old : string) (skip : nat) (s : string) : nat :=
  match s with
  | EmptyString => 0
  | String c s' =>
      match skip with
      | S k => count_from old k s'
      | O =>
          if String.prefix old s
          then S (count_from old (String.length old - 1) s')
          else count_from old 0 s'
      end
  end.

(** The contents of a FITS file: a map as [Map(name)] loads it, or a
    corrected map, of [uint32] pixels, as [writefits] stores it. *)
Inductive fits (F : Type) : Type :=
| Loaded (mapa : GenericMap F F)
| Corrected (image : GenericMap Z F).
Arguments Loaded {F} mapa.
Arguments Corrected {F} image.

Section Script.
Context {F : Type} `{Float64 F}.

(** [figure], lines 41-50, draws a map with matplotlib and returns
    nothing.  What it draws is not modelled: the script is read for any
    [figure], which may raise. *)
Variable figure : ∀ A : Type, GenericMap A F → result unit.

(** The script, lines 150-158, for a file name [name] and the map
    [mapa] that [Map(name)] loads in [darklimb]: the correction, the two
    [figure] calls, then [writefits] on the corrected map and [name].
    The result is the line it prints and the files after the run; the
    first exception ends the run, before anything is stored. *)
Definition script (name : string) (mapa : GenericMap F F)
    (files : gmap string (fits F)) : result (string * gmap string (fits F)) :=
  '(corrected, original) ← darklimb mapa;
  _ ← figure _ original;
  _ ← figure _ corrected;
  '(fname, files') ← writefits (Corrected corrected) name files;
  Ok ("Your File has been processed and saved as [" +:+ fname
        +:+ "] in the same directory.", files').

(** The script with the name of line 153. *)
Definition main (mapa : GenericMap F F) (files : gmap string (fits F))
  : result (string * gmap string (fits F)) :=
  script "./hmi.ic_45s.2014.02.04_03_44_15_TAI.continuum.fits" mapa files.

End Script.

(** The header keys whose values enter the pixels: lines 99-103. *)
Definition geometry_keys : list string :=
  ["WAVELNTH"; "CRPIX1"; "CRPIX2"; "RSUN_OBS"; "CDELT1"; "NAXIS1"].

(** More inputs. *)
Module Samples.
Import PrimFloat.
Local Open Scope float_scope.

(** A frame with one pixel that is not a number. *)
Definition with_nan : GenericMap float float :=
  Map (of_rows 0 [[20000; nan]; [-50; 10000]]) (Inputs.header 171).

(** A frame of 3 rows and 2 columns, and a frame without pixels, in a
    header of frame dimension 2. *)
Definition three_rows : GenericMap float float :=
  Map (of_rows 0 [[20000; 5000]; [0; 10000]; [1; 2]]) (Inputs.header 171).

Definition no_pixels : GenericMap float float :=
  Map (of_rows 0 []) (Inputs.header 171).

(** The header of [Inputs.header] with other scaling values and one more
    key. *)
Definition header_rescaled (wavelength : float) : gmap string float :=
  <["NAXIS2" := 7]> (<["BZERO" := 5]> (<["BSCALE" := 3]> (Inputs.header wavelength))).

(** Parameters with a negative radius, as a negative [CDELT1] gives. *)
Definition negative_radius : parameters (F:=R) :=
  Parameters 6173%R 0%R 0%R (-1)%R 4%R 0%R (-32768)%R 1%R.

(** A frame of one pixel below the threshold -10 of line 111, in the
    exact reading. *)
Definition blank_pixel : GenericMap R R :=
  Map (of_rows 0%R [[(-50)%R]]) (meta Inputs.faint).

End Samples.

(** * Properties *)

(** ** [writefits] *)

Lemma append_cons c s t : String c s +:+ t = String c (s +:+ t).
Proof. reflexivity. Qed.

Lemma append_nil t : "" +:+ t = t.
Proof. reflexivity. Qed.

Lemma prefix_cons a s1 b s2 :
  String.prefix (String a s1) (String b s2)
  = if Ascii.ascii_dec a b then String.prefix s1 s2 else false.
Proof. reflexivity. Qed.

(** No occurrence of [.fits] can start inside [s] and end inside an
    appended [.fits]: its [f], [i], [t] or [s] would have to be the dot. *)
Lemma prefix_fits_app (s : string) :
  s ≠ EmptyString →
  String.prefix ".fits" s = false →
  String.prefix ".fits" (s +:+ ".fits") = false.
Proof.
  intros Hne Hs.
  destruct s as [|c0 [|c1 [|c2 [|c3 [|c4 s]]]]]; [done|..];
    rewrite ?append_cons, ?append_nil, ?prefix_cons in *;
    repeat match goal with
           | |- context [Ascii.ascii_dec ?a ?b] =>
               destruct (Ascii.ascii_dec a b); try subst; try discriminate; try done
           | H : context [Ascii.ascii_dec ?a ?b] |- _ =>
               destruct (Ascii.ascii_dec a b); try subst; try discriminate; try done
           end.
  destruct s; discriminate.
Qed.

Lemma replace_from_suffix (base : string) :
  contains ".fits" base = false →
  replace_from ".fits" "_noLimbDark.fits" 0 (base +:+ ".fits")
  = base +:+ "_noLimbDark.fits".
Proof.
  induction base as [|c base IH]; intros Hc.
  - reflexivity.
  - cbn [contains] in Hc. apply orb_false_elim in Hc as [Hp Hc].
    rewrite append_cons. cbn [replace_from].
    rewrite <- append_cons, prefix_fits_app by done.
    rewrite append_cons. f_equal. apply IH, Hc.
Qed.

(** C9, as the code has it: when [.fits] occurs in the name as its suffix
    only, [writefits] replaces that suffix by [_noLimbDark.fits], and it
    stores the image under the new name whatever was there before. *)
Theorem writefits_suffix {A} (image : A) (base : string) (files : gmap string A) :
  contains ".fits" base = false →
  writefits image (base +:+ ".fits") files
  = Ok (base +:+ "_noLimbDark.fits", <[base +:+ "_noLimbDark.fits" := image]> files).
Proof.
  intros Hc. unfold writefits, str_replace, replace.
  rewrite (replace_from_suffix base Hc).
  unfold save. cbn. destruct (files !! _); reflexivity.
Qed.

Lemma writefits_suffix_witness :
  writefits 7%nat ("img" +:+ ".fits") {["img_noLimbDark.fits" := 1%nat]}
  = Ok ("img_noLimbDark.fits", <["img_noLimbDark.fits" := 7%nat]> {["img_noLimbDark.fits" := 1%nat]}).
Proof. apply (writefits_suffix 7%nat "img"). reflexivity. Defined.

(** C9 as stated fails: [str.replace] rewrites every occurrence of
    [.fits], not only the suffix. *)
Lemma writefits_not_suffix_only :
  fst <$> (match writefits 0%nat "./obs.fits.d/img.fits" ∅ with Ok r => Some r | Raise _ => None end)
  = Some "./obs_noLimbDark.fits.d/img_noLimbDark.fits"
  ∧ suffix_replaced "./obs.fits.d/img.fits" = Some "./obs.fits.d/img_noLimbDark.fits"
  ∧ "./obs_noLimbDark.fits.d/img_noLimbDark.fits" ≠ "./obs.fits.d/img_noLimbDark.fits".
Proof. split; [|split]; [reflexivity | reflexivity | discriminate]. Qed.

(** ** The result monad *)

Lemma bind_Ok {A B} (m : result A) (f : A → result B) (b : B) :
  m ≫= f = Ok b → ∃ a, m = Ok a ∧ f a = Ok b.
Proof. destruct m as [a|e]; [eauto | discriminate]. Qed.

Lemma getitem_Ok {F} (head : gmap string F) (key : string) (x : F) :
  getitem head key = Ok x ↔ head !! key = Some x.
Proof. unfold getitem. destruct (head !! key); split; congruence. Qed.

(** ** The structure of a successful call *)

Section Structure.
Context {F : Type} `{Float64 F}.

Lemma read_parameters_Ok (head : gmap string F) (p : parameters) :
  read_parameters head = Ok p →
  ∃ rsun_obs cdelt1,
    head !! "WAVELNTH" = Some (wavelength p) ∧
    head !! "CRPIX1" = Some (xcen p) ∧
    head !! "CRPIX2" = Some (ycen p) ∧
    head !! "RSUN_OBS" = Some rsun_obs ∧
    head !! "CDELT1" = Some cdelt1 ∧
    feqb cdelt1 (of_Z 0) = false ∧
    radius p = fdiv rsun_obs cdelt1 ∧
    head !! "NAXIS1" = Some (size p) ∧
    head !! "BZERO" = Some (bzero p) ∧
    head !! "BLANK" = Some (blank p) ∧
    head !! "BSCALE" = Some (bscale p).
Proof.
  unfold read_parameters. intros Hr.
  apply bind_Ok in Hr as (w & Hw & Hr). apply bind_Ok in Hr as (x & Hx & Hr).
  apply bind_Ok in Hr as (y & Hy & Hr). apply bind_Ok in Hr as (r & Hrs & Hr).
  apply bind_Ok in Hr as (c & Hc & Hr). apply bind_Ok in Hr as (q & Hq & Hr).
  apply bind_Ok in Hr as (s & Hs & Hr). apply bind_Ok in Hr as (bz & Hbz & Hr).
  apply bind_Ok in Hr as (bl & Hbl & Hr). apply bind_Ok in Hr as (bs & Hbs & Hr).
  injection Hr as <-. cbn.
  unfold py_truediv in Hq. destruct (feqb c (of_Z 0)) eqn:Hz; [discriminate|].
  injection Hq as <-.
  rewrite getitem_Ok in *. eauto 15.
Qed.

Lemma restore_scaling_id (head : gmap string F) (p : parameters) :
  read_parameters head = Ok p → restore_scaling p head = head.
Proof.
  intros (r & c & _ & _ & _ & _ & _ & _ & _ & _ & Hz & Hb & Hs)%read_parameters_Ok.
  unfold restore_scaling.
  rewrite (insert_id head "BZERO") by done.
  rewrite (insert_id head "BLANK") by done.
  apply insert_id. done.
Qed.

Lemma imul_uint32_Ok (a a' : ndarray Z) (k : Z) :
  imul_uint32 a k = Ok a' →
  (0 ≤ k < 2 ^ 32)%Z ∧ a' = amap (fun p => (p * k) mod 2 ^ 32)%Z a.
Proof.
  unfold imul_uint32.
  destruct (0 <=? k)%Z eqn:H0, (k <? 2 ^ 32)%Z eqn:H1; cbn; try discriminate.
  intros [= <-]. split; [lia | done].
Qed.

Lemma py_pow_cases (x : F) (k : nat) :
  py_pow x k = Ok (fpow x k) ∨ py_pow x k = Raise OverflowError.
Proof. unfold py_pow. destruct (finite x && infinite (fpow x k)); auto. Qed.

(** The powers are those of the C library, or the call has raised. *)
Lemma powers_cases (ll : F) :
  powers ll = Ok [of_Z 1; ll; fpow ll 2; fpow ll 3; fpow ll 4; fpow ll 5]
  ∨ powers ll = Raise OverflowError.
Proof.
  unfold powers.
  destruct (py_pow_cases ll 2) as [-> | ->]; [|right; reflexivity].
  destruct (py_pow_cases ll 3) as [-> | ->]; [|right; reflexivity].
  destruct (py_pow_cases ll 4) as [-> | ->]; [|right; reflexivity].
  destruct (py_pow_cases ll 5) as [-> | ->]; [left|right]; reflexivity.
Qed.

(** The two coefficient functions raise together, and nothing but
    [OverflowError]. *)
Lemma darklimb_uv_cases (ll : F) :
  (∃ ul vl, darklimb_u ll = Ok ul ∧ darklimb_v ll = Ok vl)
  ∨ (darklimb_u ll = Raise OverflowError ∧ darklimb_v ll = Raise OverflowError).
Proof.
  unfold darklimb_u, darklimb_v.
  destruct (powers_cases ll) as [-> | ->]; [left | right; done].
  eexists _, _. split; reflexivity.
Qed.

Lemma coefficients_Ok (w ul vl : F) :
  coefficients w = Ok (ul, vl)
  ↔ darklimb_u (fmul (of_Z 1) w) = Ok ul ∧ darklimb_v (fmul (of_Z 1) w) = Ok vl.
Proof.
  unfold coefficients.
  destruct (darklimb_u (fmul (of_Z 1) w)) as [u|e]; cbn; [|split; [done | intros [? _]; done]].
  destruct (darklimb_v (fmul (of_Z 1) w)) as [v|e]; cbn; [|split; [done | intros [_ ?]; done]].
  split; [intros [= -> ->]; done | intros [[= ->] [= ->]]; done].
Qed.

Lemma coefficients_Raise (w : F) (e : exn) :
  coefficients w = Raise e →
  e = OverflowError ∧ darklimb_u (fmul (of_Z 1) w) = Raise OverflowError.
Proof.
  unfold coefficients.
  destruct (darklimb_uv_cases (fmul (of_Z 1) w)) as [(ul & vl & -> & ->) | [-> _]];
    cbn; [discriminate|].
  intros [= <-]. done.
Qed.

(** What a call that returns has computed. *)
Lemma darklimb_Ok (mapa : GenericMap F F) (corrected : GenericMap Z F)
    (original : GenericMap F F) :
  darklimb mapa = Ok (corrected, original) →
  ∃ p array ul vl n quotient nmx k,
    read_parameters (meta mapa) = Ok p ∧
    rescaled (data mapa) = Ok array ∧
    darklimb_u (fmul (of_Z 1) (wavelength p)) = Ok ul ∧
    darklimb_v (fmul (of_Z 1) (wavelength p)) = Ok vl ∧
    arange_len (size p) = Ok n ∧
    broadcast fdiv array (limbfilt ul vl p n) = Ok quotient ∧
    np_nanmax (data mapa) = Ok nmx ∧
    py_int (fmul (of_dec 1 (-4)) nmx) = Ok k ∧
    (0 ≤ k < 2 ^ 32)%Z ∧
    corrected = Map (amap (fun v => (v * k) mod 2 ^ 32)%Z (amap cast_uint32 quotient))
                    (meta mapa) ∧
    original = mapa.
Proof.
  unfold darklimb. intros Hd.
  apply bind_Ok in Hd as (p & Hp & Hd). apply bind_Ok in Hd as (array & Harray & Hd).
  apply bind_Ok in Hd as (ul & Hul & Hd). apply bind_Ok in Hd as (vl & Hvl & Hd).
  apply bind_Ok in Hd as (n & Hn & Hd). apply bind_Ok in Hd as (q & Hq & Hd).
  apply bind_Ok in Hd as (nmx & Hnmx & Hd). apply bind_Ok in Hd as (k & Hk & Hd).
  apply bind_Ok in Hd as (img & Himg & Hd).
  apply imul_uint32_Ok in Himg as [Hrange ->].
  injection Hd as <- <-.
  rewrite (restore_scaling_id _ _ Hp).
  exists p, array, ul, vl, n, q, nmx, k. repeat split; try done; try lia.
  destruct mapa; reflexivity.
Qed.

Lemma rescaled_Ok (d array : ndarray F) :
  rescaled d = Ok array → ∃ mx, np_max d = Ok mx ∧ array = amap (rescale mx) d.
Proof.
  unfold rescaled. intros Hr. apply bind_Ok in Hr as (mx & Hmx & [= <-]). eauto.
Qed.

(** A pixel of [limbfilt] is the factor at its normalised radius. *)
Lemma limbfilt_item (ul vl : F) (p : parameters) (n i j : nat) :
  item (limbfilt ul vl p n) i j = factor ul vl (normalised_radius p i j).
Proof. reflexivity. Qed.

(** Off the disk the factor is the value of the formula at radius 0,
    the value it has on the disk centre. *)
Lemma limbfilt_off_disk (ul vl : F) (p : parameters) (n i j : nat) :
  fltb (of_Z 1) (normalised_radius p i j) = true →
  item (limbfilt ul vl p n) i j = limb ul vl (of_Z 0).
Proof. intros Hg. rewrite limbfilt_item. unfold factor, clamp. rewrite Hg. done. Qed.

Lemma broadcast_Ok_shape {A B C} (f : A → B → C) (a : ndarray A) (b : ndarray B)
    (c : ndarray C) :
  broadcast f a b = Ok c →
  broadcast_dim (nrows a) (nrows b) = Some (nrows c) ∧
  broadcast_dim (ncols a) (ncols b) = Some (ncols c).
Proof.
  unfold broadcast.
  destruct (broadcast_dim (nrows a) (nrows b)), (broadcast_dim (ncols a) (ncols b));
    try discriminate.
  intros [= <-]. done.
Qed.

(** A pixel of a broadcast operation is taken from the pixels that the
    stretching pairs at its place. *)
Lemma broadcast_Ok_item {A B C} (f : A → B → C) (a : ndarray A) (b : ndarray B)
    (c : ndarray C) (i j : nat) :
  broadcast f a b = Ok c →
  item c i j = f (item a (stretch (nrows a) i) (stretch (ncols a) j))
                 (item b (stretch (nrows b) i) (stretch (ncols b) j)).
Proof.
  unfold broadcast.
  destruct (broadcast_dim (nrows a) (nrows b)), (broadcast_dim (ncols a) (ncols b));
    try discriminate.
  intros [= <-]. reflexivity.
Qed.

Lemma broadcast_dim_same (n : nat) : broadcast_dim n n = Some n.
Proof. unfold broadcast_dim. rewrite Nat.eqb_refl. done. Qed.

Lemma stretch_lt (n i : nat) : (i < n)%nat → stretch n i = i.
Proof. unfold stretch. destruct (Nat.eqb_spec n 1); lia. Qed.

(** Two arrays of one square shape combine pixel by pixel. *)
Lemma broadcast_square {A B C} (f : A → B → C) (a : ndarray A) (b : ndarray B)
    (n : nat) :
  shape a = (n, n) → shape b = (n, n) →
  ∃ c, broadcast f a b = Ok c ∧ shape c = (n, n) ∧
       ∀ i j, (i < n)%nat → (j < n)%nat →
              item c i j = f (item a i j) (item b i j).
Proof.
  unfold shape, broadcast. intros [= -> Hca] [= Hrb Hcb].
  rewrite Hrb, Hcb, Hca, !broadcast_dim_same.
  eexists. split; [reflexivity|]. split; [reflexivity|].
  intros i j Hi Hj. cbn. rewrite !stretch_lt by lia. reflexivity.
Qed.

Lemma elements_Forall {A} (P : A → Prop) (a : ndarray A) :
  (∀ i j, (i < nrows a)%nat → (j < ncols a)%nat → P (item a i j)) →
  Forall P (elements a).
Proof.
  intros Hp. unfold elements. apply Forall_flat_map, Forall_forall.
  intros i Hi%list_elem_of_In%in_seq. apply Forall_map, Forall_forall.
  intros j Hj%list_elem_of_In%in_seq. apply Hp; lia.
Qed.

Lemma elements_nonempty {A} (a : ndarray A) :
  (0 < nrows a)%nat → (0 < ncols a)%nat → elements a ≠ [].
Proof.
  unfold elements.
  destruct (nrows a) as [|r]; [lia|]. destruct (ncols a) as [|c]; [lia|].
  discriminate.
Qed.

Lemma fold_maximum_const (x : F) (l : list F) :
  maximum x x = x → Forall (eq x) l → fold_left maximum l x = x.
Proof.
  intros Hx. induction 1 as [|y l <- _ IH]; [done|]. cbn. rewrite Hx. exact IH.
Qed.

(** The maximum of a grid whose pixels all are [x]. *)
Lemma np_max_const (a : ndarray F) (x : F) :
  (0 < nrows a)%nat → (0 < ncols a)%nat → maximum x x = x →
  (∀ i j, (i < nrows a)%nat → (j < ncols a)%nat → item a i j = x) →
  np_max a = Ok x.
Proof.
  intros Hr Hc Hx Ha. unfold np_max.
  pose proof (elements_nonempty a Hr Hc) as Hne.
  pose proof (elements_Forall (eq x) a) as Hall.
  destruct (elements a) as [|y l]; [done|].
  apply Forall_cons in Hall as [<- Hl]; [|intros; symmetry; auto].
  rewrite fold_maximum_const; done.
Qed.

Lemma np_nanmax_const (a : ndarray F) (x : F) :
  (0 < nrows a)%nat → (0 < ncols a)%nat → maximum x x = x → fisnan x = false →
  (∀ i j, (i < nrows a)%nat → (j < ncols a)%nat → item a i j = x) →
  np_nanmax a = Ok x.
Proof.
  intros Hr Hc Hx Hn Ha. unfold np_nanmax.
  pose proof (elements_nonempty a Hr Hc) as Hne.
  pose proof (elements_Forall (eq x) a) as Hall.
  destruct (elements a) as [|y l]; [done|].
  apply Forall_cons in Hall as [<- Hl]; [|intros; symmetry; auto].
  assert (Hf : List.filter (fun y => negb (fisnan y)) l = l).
  { clear -Hl Hn. induction Hl as [|y l <- _ IH]; [done|].
    cbn. rewrite Hn. cbn. f_equal. exact IH. }
  cbn [List.filter]. rewrite Hn. cbn [negb]. rewrite Hf.
  rewrite fold_maximum_const; done.
Qed.

Lemma np_nanmax_Ok_max (a : ndarray F) (x : F) :
  np_nanmax a = Ok x → ∃ mx, np_max a = Ok mx.
Proof.
  unfold np_nanmax, np_max. destruct (elements a); [discriminate | eauto].
Qed.

(** A complete header whose pixel scale is not zero is read. *)
Lemma read_parameters_complete (head : gmap string F) :
  first_absent head = None →
  zero_pixel_scale head = false →
  ∃ p, read_parameters head = Ok p ∧ head !! "NAXIS1" = Some (size p)
       ∧ head !! "WAVELNTH" = Some (wavelength p).
Proof.
  unfold read_parameters, first_absent, zero_pixel_scale, required_keys,
    getitem, absent, py_truediv.
  cbn [List.find forallb].
  destruct (head !! "WAVELNTH") as [w|]; cbn; [|discriminate].
  destruct (head !! "CRPIX1") as [x|]; cbn; [|discriminate].
  destruct (head !! "CRPIX2") as [y|]; cbn; [|discriminate].
  destruct (head !! "RSUN_OBS") as [r|]; cbn; [|discriminate].
  destruct (head !! "CDELT1") as [c|]; cbn; [|discriminate].
  destruct (feqb c (of_Z 0)); cbn; [discriminate|].
  destruct (head !! "NAXIS1") as [s|]; cbn; [|discriminate].
  destruct (head !! "BZERO") as [bz|]; cbn; [|discriminate].
  destruct (head !! "BLANK") as [bl|]; cbn; [|discriminate].
  destruct (head !! "BSCALE") as [bs|]; cbn; [|discriminate].
  intros _ _. eexists. repeat split; reflexivity.
Qed.

(** A call returns once each of its steps does. *)
Lemma darklimb_returns (mapa : GenericMap F F) (p : parameters)
    (array : ndarray F) (ul vl : F) (n : nat) (nmx : F) (k : Z) :
  read_parameters (meta mapa) = Ok p →
  rescaled (data mapa) = Ok array →
  darklimb_u (fmul (of_Z 1) (wavelength p)) = Ok ul →
  darklimb_v (fmul (of_Z 1) (wavelength p)) = Ok vl →
  arange_len (size p) = Ok n →
  shape (data mapa) = (n, n) →
  np_nanmax (data mapa) = Ok nmx →
  py_int (fmul (of_dec 1 (-4)) nmx) = Ok k →
  (0 ≤ k < 2 ^ 32)%Z →
  ∃ corrected, darklimb mapa = Ok (corrected, mapa) ∧
    shape (data corrected) = (n, n) ∧
    ∀ i j, (i < n)%nat → (j < n)%nat →
      item (data corrected) i j
      = ((cast_uint32 (fdiv (item array i j) (item (limbfilt ul vl p n) i j)) * k)
           mod 2 ^ 32)%Z.
Proof.
  intros Hp Ha Hul Hvl Hn Hs Hm Hk Hr.
  assert (Harr : shape array = (n, n)).
  { apply rescaled_Ok in Ha as (mx & _ & ->). exact Hs. }
  destruct (broadcast_square fdiv array (limbfilt ul vl p n) n Harr eq_refl)
    as (q & Hq & Hqs & Hqi).
  unfold darklimb. rewrite Hp. cbn. rewrite Ha. cbn. rewrite Hul. cbn.
  rewrite Hvl. cbn. rewrite Hn. cbn.
  rewrite Hq. cbn. rewrite Hm. cbn. rewrite Hk. cbn.
  unfold imul_uint32.
  destruct (Z.leb_spec 0 k); [|lia]. destruct (Z.ltb_spec k (2 ^ 32)); [|lia].
  cbn. rewrite (restore_scaling_id _ _ Hp).
  eexists. split; [destruct mapa; reflexivity|].
  split; [exact Hqs|]. intros i j Hi Hj. cbn. rewrite Hqi by done. reflexivity.
Qed.

(** With the header read and a grid that has a maximum, an exception of
    the coefficient functions is that of the call. *)
Lemma darklimb_overflow (mapa : GenericMap F F) (p : parameters) (e : exn) :
  read_parameters (meta mapa) = Ok p →
  is_Ok (np_max (data mapa)) = true →
  coefficients (wavelength p) = Raise e →
  darklimb mapa = Raise e.
Proof.
  intros Hp Hmx He. destruct (coefficients_Raise _ _ He) as [-> Hu].
  unfold darklimb. rewrite Hp. cbn. unfold rescaled.
  destruct (np_max (data mapa)) as [mx|]; [|discriminate]. cbn.
  rewrite Hu. reflexivity.
Qed.

(** The pixels of a call that returns, whatever the shape of the grid:
    each is computed from the raw pixel and the pixel of the filter that
    broadcasting pairs at its place. *)
Lemma darklimb_Ok_items (mapa : GenericMap F F) (corrected : GenericMap Z F)
    (original : GenericMap F F) :
  darklimb mapa = Ok (corrected, original) →
  ∃ p ul vl n mx nmx k,
    read_parameters (meta mapa) = Ok p ∧
    darklimb_u (fmul (of_Z 1) (wavelength p)) = Ok ul ∧
    darklimb_v (fmul (of_Z 1) (wavelength p)) = Ok vl ∧
    arange_len (size p) = Ok n ∧
    np_max (data mapa) = Ok mx ∧
    np_nanmax (data mapa) = Ok nmx ∧
    py_int (fmul (of_dec 1 (-4)) nmx) = Ok k ∧
    (0 ≤ k < 2 ^ 32)%Z ∧
    ∀ i j,
      item (data corrected) i j
      = ((cast_uint32
            (fdiv (rescale mx (item (data mapa)
                                    (stretch (nrows (data mapa)) i)
                                    (stretch (ncols (data mapa)) j)))
                  (item (limbfilt ul vl p n) (stretch n i) (stretch n j))) * k)
           mod 2 ^ 32)%Z.
Proof.
  intros Hd.
  destruct (darklimb_Ok _ _ _ Hd)
    as (p & array & ul & vl & n & q & nmx & k
        & Hp & Ha & Hul & Hvl & Hn & Hq & Hm & Hk & Hr & -> & _).
  apply rescaled_Ok in Ha as (mx & Hmx & ->).
  exists p, ul, vl, n, mx, nmx, k. repeat split; try done; try lia.
  intros i j. cbn [data item amap].
  rewrite (broadcast_Ok_item _ _ _ _ i j Hq). reflexivity.
Qed.

(** On a square frame, the header of a call that returns is complete
    and the pixels of its result are those of [darklimb_returns]. *)
Lemma darklimb_Ok_pixels (mapa : GenericMap F F) (n : nat)
    (corrected : GenericMap Z F) (original : GenericMap F F) :
  square_frame mapa n →
  darklimb mapa = Ok (corrected, original) →
  ∃ p ul vl mx nmx k,
    read_parameters (meta mapa) = Ok p ∧
    darklimb_u (fmul (of_Z 1) (wavelength p)) = Ok ul ∧
    darklimb_v (fmul (of_Z 1) (wavelength p)) = Ok vl ∧
    np_max (data mapa) = Ok mx ∧
    np_nanmax (data mapa) = Ok nmx ∧
    py_int (fmul (of_dec 1 (-4)) nmx) = Ok k ∧
    (0 ≤ k < 2 ^ 32)%Z ∧
    ∀ i j, (i < n)%nat → (j < n)%nat →
      item (data corrected) i j
      = ((cast_uint32 (fdiv (rescale mx (item (data mapa) i j))
                            (item (limbfilt ul vl p n) i j)) * k) mod 2 ^ 32)%Z.
Proof.
  intros [Hshape (s & Hs & Hn)] Hd.
  destruct (darklimb_Ok _ _ _ Hd)
    as (p & array & ul & vl & n' & q & nmx & k
        & Hp & Ha & Hul & Hvl & Hn' & Hq & Hm & Hk & Hr & _ & _).
  pose proof Hp as Hp'.
  apply read_parameters_Ok in Hp'
    as (r & c & _ & _ & _ & _ & _ & _ & _ & Hs' & _).
  assert (n' = n) as -> by congruence.
  destruct (darklimb_returns mapa p array ul vl n nmx k
              Hp Ha Hul Hvl Hn' Hshape Hm Hk Hr)
    as (c' & Hd' & _ & Hpix).
  assert (c' = corrected) as -> by congruence.
  apply rescaled_Ok in Ha as (mx & Hmx & ->).
  exists p, ul, vl, mx, nmx, k. repeat split; try done; lia.
Qed.

End Structure.

(** ** The header *)

Section Header.
Context {F : Type} `{Float64 F}.

(** C5, as the code has it.  The nine keys are read in order and the
    radius is [RSUN_OBS / CDELT1].  A header that lacks a key makes
    [darklimb] raise [KeyError] (the [MissingFieldError] of the
    specification) for the first key it lacks, unless the division is
    reached with [CDELT1] zero: then it raises [ZeroDivisionError],
    also when one of the four keys read after it is absent. *)
Theorem read_parameters_spec (mapa : GenericMap F F) :
  (∀ key, first_absent (meta mapa) = Some key →
          zero_pixel_scale (meta mapa) = false →
          read_parameters (meta mapa) = Raise (KeyError key) ∧
          darklimb mapa = Raise (KeyError key)) ∧
  (zero_pixel_scale (meta mapa) = true →
     read_parameters (meta mapa) = Raise ZeroDivisionError ∧
     darklimb mapa = Raise ZeroDivisionError) ∧
  (first_absent (meta mapa) = None →
   zero_pixel_scale (meta mapa) = false →
   ∃ p rsun_obs cdelt1,
     read_parameters (meta mapa) = Ok p ∧
     meta mapa !! "WAVELNTH" = Some (wavelength p) ∧
     meta mapa !! "CRPIX1" = Some (xcen p) ∧
     meta mapa !! "CRPIX2" = Some (ycen p) ∧
     meta mapa !! "RSUN_OBS" = Some rsun_obs ∧
     meta mapa !! "CDELT1" = Some cdelt1 ∧
     radius p = fdiv rsun_obs cdelt1 ∧
     meta mapa !! "NAXIS1" = Some (size p) ∧
     meta mapa !! "BZERO" = Some (bzero p) ∧
     meta mapa !! "BLANK" = Some (blank p) ∧
     meta mapa !! "BSCALE" = Some (bscale p)).
Proof.
  unfold darklimb, read_parameters, first_absent, zero_pixel_scale,
    required_keys, getitem, absent, py_truediv.
  cbn [List.find forallb].
  destruct (meta mapa !! "WAVELNTH") as [w|]; cbn;
    [|split; [intros ? [= <-] _; done | split; done]].
  destruct (meta mapa !! "CRPIX1") as [x|]; cbn;
    [|split; [intros ? [= <-] _; done | split; done]].
  destruct (meta mapa !! "CRPIX2") as [y|]; cbn;
    [|split; [intros ? [= <-] _; done | split; done]].
  destruct (meta mapa !! "RSUN_OBS") as [r|]; cbn;
    [|split; [intros ? [= <-] _; done | split; done]].
  destruct (meta mapa !! "CDELT1") as [c|]; cbn;
    [|split; [intros ? [= <-] _; done | split; done]].
  destruct (feqb c (of_Z 0)); cbn; [split; [done | split; done]|].
  destruct (meta mapa !! "NAXIS1") as [s|]; cbn;
    [|split; [intros ? [= <-] _; done | split; done]].
  destruct (meta mapa !! "BZERO") as [bz|]; cbn;
    [|split; [intros ? [= <-] _; done | split; done]].
  destruct (meta mapa !! "BLANK") as [bl|]; cbn;
    [|split; [intros ? [= <-] _; done | split; done]].
  destruct (meta mapa !! "BSCALE") as [bs|]; cbn;
    [|split; [intros ? [= <-] _; done | split; done]].
  split; [done | split; [done|]]. intros _ _.
  eexists (Parameters w x y (fdiv r c) s bz bl bs), r, c. done.
Qed.

(** C6.  A call that returns gives back [mapa] as it was, and the
    corrected map carries the header of [mapa]: [BZERO], [BLANK] and
    [BSCALE] (and every other field) are those of the input. *)
Theorem metadata_round_trip (mapa : GenericMap F F)
    (corrected : GenericMap Z F) (original : GenericMap F F) :
  darklimb mapa = Ok (corrected, original) →
  meta corrected !! "BZERO" = meta mapa !! "BZERO" ∧
  meta corrected !! "BLANK" = meta mapa !! "BLANK" ∧
  meta corrected !! "BSCALE" = meta mapa !! "BSCALE" ∧
  is_Some (meta mapa !! "BZERO") ∧
  is_Some (meta mapa !! "BLANK") ∧
  is_Some (meta mapa !! "BSCALE") ∧
  original = mapa.
Proof.
  intros Hd.
  destruct (darklimb_Ok _ _ _ Hd)
    as (p & mx & ul & vl & n & q & nmx & k
        & Hp & _ & _ & _ & _ & _ & _ & _ & _ & -> & ->).
  apply read_parameters_Ok in Hp
    as (r & c & _ & _ & _ & _ & _ & _ & _ & _ & Hz & Hb & Hs).
  cbn. rewrite Hz, Hb, Hs. repeat split; eauto.
Qed.

Lemma broadcast_dim_keeps (r n r' : nat) :
  broadcast_dim r n = Some r' → (r' = r ↔ r = n ∨ n = 1%nat).
Proof.
  unfold broadcast_dim.
  destruct (Nat.eqb_spec r n) as [->|Hrn]; [intros [= <-]; tauto|].
  destruct (Nat.eqb_spec r 1) as [->|Hr1]; [intros [= <-]; lia|].
  destruct (Nat.eqb_spec n 1) as [->|Hn1]; [intros [= <-]; tauto | discriminate].
Qed.

(** C8, as the code has it.  The corrected grid of a call that returns
    has the shape that broadcasting gives the division of line 134: each
    dimension of the input grid against the frame dimension [n] of the
    filter, the length of [arange(0, NAXIS1, 1)].  On an image of the
    data model, [n] by [n], that is the shape of the input; in general it
    is the shape of the input exactly when each of its dimensions is [n],
    or [n] is 1. *)
Theorem shape_invariance (mapa : GenericMap F F)
    (corrected : GenericMap Z F) (original : GenericMap F F) :
  darklimb mapa = Ok (corrected, original) →
  ∃ naxis1 n,
    meta mapa !! "NAXIS1" = Some naxis1 ∧
    arange_len naxis1 = Ok n ∧
    broadcast_dim (nrows (data mapa)) n = Some (nrows (data corrected)) ∧
    broadcast_dim (ncols (data mapa)) n = Some (ncols (data corrected)) ∧
    (shape (data mapa) = (n, n) → shape (data corrected) = shape (data mapa)) ∧
    (shape (data corrected) = shape (data mapa)
     ↔ (nrows (data mapa) = n ∨ n = 1%nat) ∧ (ncols (data mapa) = n ∨ n = 1%nat)).
Proof.
  intros Hd.
  destruct (darklimb_Ok _ _ _ Hd)
    as (p & array & ul & vl & n & q & nmx & k
        & Hp & Ha & _ & _ & Hn & Hq & _ & _ & _ & -> & _).
  apply read_parameters_Ok in Hp
    as (r & c & _ & _ & _ & _ & _ & _ & _ & Hs & _).
  exists (size p), n. split; [exact Hs|]. split; [exact Hn|].
  apply rescaled_Ok in Ha as (mx & _ & ->).
  apply broadcast_Ok_shape in Hq as [Hr Hc]. cbn in Hr, Hc.
  change (nrows (data (Map (amap (fun v => (v * k) mod 2 ^ 32)%Z
                             (amap cast_uint32 q)) (meta mapa))))
    with (nrows q).
  change (ncols (data (Map (amap (fun v => (v * k) mod 2 ^ 32)%Z
                             (amap cast_uint32 q)) (meta mapa))))
    with (ncols q).
  pose proof (broadcast_dim_keeps _ _ _ Hr) as Hkr.
  pose proof (broadcast_dim_keeps _ _ _ Hc) as Hkc.
  split; [exact Hr|]. split; [exact Hc|].
  assert (Hiff : shape (Map (amap (fun v => (v * k) mod 2 ^ 32)%Z
                              (amap cast_uint32 q)) (meta mapa)).(data)
                 = shape (data mapa)
                 ↔ (nrows (data mapa) = n ∨ n = 1%nat)
                   ∧ (ncols (data mapa) = n ∨ n = 1%nat)).
  { unfold shape. cbn [data nrows ncols amap]. split.
    - intros [= H1 H2]. split; [apply Hkr, H1 | apply Hkc, H2].
    - intros [H1 H2]. f_equal; [apply Hkr, H1 | apply Hkc, H2]. }
  split; [|exact Hiff].
  intros [= H1 H2]. apply Hiff. split; left; done.
Qed.

End Header.

(** ** The exact reading *)

Module ExactProps.
Import Exact Inputs.
Local Open Scope R_scope.

Lemma fltb_true (x y : R) : fltb x y = true ↔ x < y.
Proof. cbn. destruct (Rlt_dec x y); split; (done || congruence). Qed.

Lemma fltb_false (x y : R) : fltb x y = false ↔ y <= x.
Proof. cbn. destruct (Rlt_dec x y); split; (lra || congruence). Qed.

(** A power of a real number does not overflow. *)
Lemma py_pow_exact (x : R) (k : nat) : py_pow x k = Ok (x ^ k).
Proof. reflexivity. Qed.

Lemma powers_exact (ll : R) :
  powers ll = Ok [1; ll; ll ^ 2; ll ^ 3; ll ^ 4; ll ^ 5].
Proof. reflexivity. Qed.

Lemma darklimb_u_polynomial (ll : R) :
  darklimb_u ll = Ok (polynomial u_coefficients ll).
Proof.
  unfold darklimb_u. rewrite powers_exact. cbn [mbind result_bind]. f_equal.
  cbv [py_sum polynomial polynomial_from u_coefficients
       fold_left zip_with fadd fmul of_Z of_dec exact].
  norm_dec. lra.
Qed.

Lemma darklimb_v_polynomial (ll : R) :
  darklimb_v ll = Ok (polynomial v_coefficients ll).
Proof.
  unfold darklimb_v. rewrite powers_exact. cbn [mbind result_bind]. f_equal.
  cbv [py_sum polynomial polynomial_from v_coefficients
       fold_left zip_with fadd fmul of_Z of_dec exact].
  norm_dec. lra.
Qed.

Lemma clamp_outside (g : R) : 1 < g → clamp g = 0.
Proof. intros Hg%fltb_true. unfold clamp. cbn in *. rewrite Hg. done. Qed.

Lemma clamp_inside (g : R) : g <= 1 → clamp g = g.
Proof. intros Hg%fltb_false. unfold clamp. cbn in *. rewrite Hg. done. Qed.

Lemma limb_centre (ul vl : R) : limb ul vl 0 = 1.
Proof. unfold limb, sq. cbn. rewrite asin_0, cos_0. ring. Qed.

Lemma limb_inside (ul vl g : R) :
  -1 <= g <= 1 →
  limb ul vl g = 1 - ul - vl + ul * sqrt (1 - g * g) + vl * (1 - g * g).
Proof.
  intros Hg. unfold limb, sq. cbn. rewrite cos_asin by done.
  unfold Rsqr. rewrite sqrt_sqrt by nra. done.
Qed.

Lemma factor_outside (ul vl g : R) : 1 < g → factor ul vl g = 1.
Proof. intros Hg. unfold factor. rewrite clamp_outside by done. apply limb_centre. Qed.

Lemma factor_edge (ul vl : R) : factor ul vl 1 = 1 - ul - vl.
Proof.
  unfold factor. rewrite clamp_inside, limb_inside by lra.
  replace (1 - 1 * 1) with 0 by ring. rewrite sqrt_0. ring.
Qed.

Lemma factor_inside (ul vl g : R) : 0 <= g <= 1 → factor ul vl g = inside ul vl g.
Proof.
  intros Hg. unfold factor. rewrite clamp_inside, limb_inside by lra. done.
Qed.

Lemma continuity_pt_id (x : R) : continuity_pt Ranalysis1.id x.
Proof. apply derivable_continuous_pt, derivable_pt_id. Qed.

Lemma inside_continuous (ul vl : R) : continuity_pt (inside ul vl) 1.
Proof.
  set (k := (fct_cte 1 - Ranalysis1.id * Ranalysis1.id)%F).
  assert (Hk : continuity_pt k 1).
  { apply continuity_pt_minus; [apply continuity_pt_const; intros ? ?; done|].
    apply continuity_pt_mult; apply continuity_pt_id. }
  assert (Hs : continuity_pt (comp sqrt k) 1).
  { apply continuity_pt_comp; [done|]. apply continuity_pt_sqrt.
    unfold k, minus_fct, mult_fct, fct_cte, Ranalysis1.id. lra. }
  assert (H : continuity_pt
                (fct_cte (1 - ul - vl) + fct_cte ul * comp sqrt k + fct_cte vl * k)%F 1).
  { repeat first [ assumption | apply continuity_pt_const; intros ? ?; done
                 | apply continuity_pt_plus | apply continuity_pt_mult ]. }
  exact H.
Qed.

(** From inside the disk the factor tends to its value on the edge. *)
Lemma factor_left_continuous (ul vl eps : R) :
  0 < eps →
  ∃ delta, 0 < delta ∧
    ∀ g, 1 - delta < g <= 1 → Rabs (factor ul vl g - factor ul vl 1) < eps.
Proof.
  intros Heps.
  destruct (inside_continuous ul vl eps Heps) as (alp & Halp & Hc).
  exists (Rmin alp 1). split; [apply Rmin_pos; lra|].
  intros g [Hlo Hhi].
  pose proof (Rmin_l alp 1). pose proof (Rmin_r alp 1).
  destruct (Req_dec g 1) as [->|Hne].
  - rewrite Rminus_diag, Rabs_R0. done.
  - rewrite !factor_inside by lra.
    apply (Hc g). split; [split; [done | congruence]|].
    cbn. unfold Rdist. rewrite Rabs_left1 by lra. lra.
Qed.

(** The factor is continuous on the edge exactly when [u + v = 0]. *)
Lemma factor_continuous_iff (ul vl : R) :
  continuity_pt (factor ul vl) 1 ↔ ul + vl = 0.
Proof.
  split.
  - intros Hc. destruct (Req_dec (ul + vl) 0) as [|Hne]; [done|exfalso].
    destruct (Hc (Rabs (ul + vl))) as (alp & Halp & Hx); [by apply Rabs_pos_lt|].
    specialize (Hx (1 + alp / 2)).
    rewrite factor_outside, factor_edge in Hx by lra.
    cbn in Hx. unfold Rdist in Hx.
    replace (1 - (1 - ul - vl)) with (ul + vl) in Hx by ring.
    apply (Rlt_irrefl (Rabs (ul + vl))), Hx.
    split; [split; [done | lra]|].
    replace (1 + alp / 2 - 1) with (alp / 2) by ring.
    rewrite Rabs_right by lra. lra.
  - intros Huv eps Heps.
    destruct (factor_left_continuous ul vl eps Heps) as (delta & Hd & Hl).
    exists delta. split; [lra|]. intros x [_ Hx].
    change (Rabs (x - 1) < delta) in Hx.
    change (Rabs (factor ul vl x - factor ul vl 1) < eps).
    destruct (Rlt_dec 1 x) as [Hout|Hin].
    + rewrite factor_outside, factor_edge by done.
      replace (1 - (1 - ul - vl)) with (ul + vl) by ring.
      rewrite Huv, Rabs_R0. done.
    + apply Hl. apply Rabs_def2 in Hx. lra.
Qed.

Lemma hmi_coefficients_sum :
  polynomial u_coefficients 6173 + polynomial v_coefficients 6173 ≠ 0.
Proof.
  cbv [polynomial polynomial_from u_coefficients v_coefficients]. lra.
Qed.

(** C2 as stated fails: at the wavelength 6173 of the HMI continuum the
    factor is not continuous at normalised radius 1. *)
Lemma factor_jumps_at_edge :
  ∃ ul vl, darklimb_u 6173 = Ok ul ∧ darklimb_v 6173 = Ok vl ∧
           ¬ continuity_pt (factor ul vl) 1.
Proof.
  exists (polynomial u_coefficients 6173), (polynomial v_coefficients 6173).
  split; [apply darklimb_u_polynomial|]. split; [apply darklimb_v_polynomial|].
  intros Hc%factor_continuous_iff. exact (hmi_coefficients_sum Hc).
Qed.

(** C2, as the code has it.  On the edge the factor is [1 - u - v], the
    limit of its values inside the disk; just outside it is 1.  It jumps
    by [u + v] there, and is continuous only when [u + v = 0]. *)
Theorem factor_at_edge (ll : R) :
  ∃ ul vl,
    darklimb_u ll = Ok ul ∧ darklimb_v ll = Ok vl ∧
    factor ul vl 1 = 1 - ul - vl ∧
    (∀ eps, 0 < eps →
       ∃ delta, 0 < delta ∧
         ∀ g, 1 - delta < g <= 1 → Rabs (factor ul vl g - factor ul vl 1) < eps) ∧
    (∀ g, 1 < g → factor ul vl g = 1) ∧
    (continuity_pt (factor ul vl) 1 ↔ ul + vl = 0).
Proof.
  exists (polynomial u_coefficients ll), (polynomial v_coefficients ll).
  split; [apply darklimb_u_polynomial|]. split; [apply darklimb_v_polynomial|].
  split; [apply factor_edge|].
  split; [apply factor_left_continuous|].
  split; [apply factor_outside | apply factor_continuous_iff].
Qed.

Lemma factor_at_edge_witness :
  1 < 2 ∧
  ∃ ul vl, darklimb_u 6173 = Ok ul ∧ darklimb_v 6173 = Ok vl ∧
           factor ul vl 2 = 1.
Proof.
  assert (H : 1 < 2) by lra.
  split; [exact H|].
  destruct (factor_at_edge 6173) as (ul & vl & Hu & Hv & _ & _ & Hout & _).
  exists ul, vl. split; [exact Hu|]. split; [exact Hv|]. exact (Hout 2 H).
Defined.

(** *** Truncation *)

Lemma R_trunc_nonneg (x : R) : 0 <= x → R_trunc x = Int_part x.
Proof. intros Hx. unfold R_trunc. destruct (Rle_dec 0 x); [done | lra]. Qed.

Lemma Int_part_bounds (x : R) (lo hi : Z) :
  IZR lo <= x < IZR hi → (lo ≤ Int_part x < hi)%Z.
Proof.
  intros [Hlo Hhi]. destruct (base_Int_part x) as [H1 H2]. split.
  - assert (IZR lo < IZR (Int_part x) + 1) as Hlt by lra.
    rewrite <- plus_IZR in Hlt. apply lt_IZR in Hlt. lia.
  - apply lt_IZR. lra.
Qed.

Lemma Int_part_small (x : R) : 0 <= x < 1 → Int_part x = 0%Z.
Proof. intros Hx. pose proof (Int_part_bounds x 0 1 Hx). lia. Qed.

Lemma py_int_exact (x : R) : py_int x = Ok (R_trunc x).
Proof. reflexivity. Qed.

(** A quotient in the range of [uint32] is cast to its floor. *)
Lemma cast_uint32_in_range (q : R) :
  0 <= q < 4294967296 → cast_uint32 q = Int_part q.
Proof.
  intros Hq. unfold cast_uint32. cbn [ftrunc exact].
  rewrite R_trunc_nonneg by lra.
  pose proof (Int_part_bounds q 0 4294967296 Hq) as Hb.
  destruct (Z.leb_spec (- 2 ^ 63) (Int_part q)); [|lia].
  destruct (Z.ltb_spec (Int_part q) (2 ^ 63)); [|lia].
  cbn [andb]. apply Z.mod_small. lia.
Qed.

Lemma filter_not_nan (l : list R) :
  List.filter (fun y => negb (fisnan y)) l = l.
Proof. induction l as [|x l IH]; [done|]. cbn. f_equal. exact IH. Qed.

(** Without nan, [np.nanmax] is [np.max]. *)
Lemma np_nanmax_exact (a : ndarray R) : np_nanmax a = np_max a.
Proof.
  unfold np_nanmax, np_max. destruct (elements a) as [|x l]; [done|].
  rewrite filter_not_nan. done.
Qed.

Lemma multiplier_faint (mx : R) :
  0 < mx < 10000 → R_trunc (fmul (of_dec 1 (-4)) mx) = 0%Z.
Proof.
  intros Hmx. cbn [fmul of_dec exact]. norm_dec.
  rewrite R_trunc_nonneg by lra. apply Int_part_small. lra.
Qed.

Lemma rescale_nonneg (mx d : R) :
  0 < mx → 0 <= d ∨ d < -10 → 0 <= rescale mx d.
Proof.
  intros Hmx Hd. unfold rescale. cbn [fltb fdiv fmul of_Z exact].
  destruct (Rlt_dec d (-10)); [lra|].
  destruct Hd as [Hd|Hd]; [|lra].
  apply Rmult_le_pos; [lra|]. left. apply Rinv_0_lt_compat. done.
Qed.

Lemma rescale_negative (mx d : R) :
  0 < mx → -10 <= d < 0 → rescale mx d < 0.
Proof.
  intros Hmx Hd. unfold rescale. cbn [fltb fdiv fmul of_Z exact].
  destruct (Rlt_dec d (-10)); [lra|].
  pose proof (Rinv_0_lt_compat _ Hmx) as Hi. unfold Rdiv.
  replace (10000 * d * / mx) with (- (10000 * - d * / mx)) by ring.
  apply Ropp_lt_gt_0_contravar. apply Rmult_lt_0_compat; lra.
Qed.

(** In exact arithmetic: when the raw maximum is positive and less than
    1e4, the multiplier [int(1e-4 * max)] is 0 and every pixel of the
    corrected image is 0; and on a frame of the data model with a complete
    header the call does return. *)
Lemma faint_image_is_zeroed_exact (mapa : GenericMap R R) (mx : R) :
  np_max (data mapa) = Ok mx →
  0 < mx < 10000 →
  py_int (fmul (of_dec 1 (-4)) mx) = Ok 0%Z ∧
  (∀ corrected original,
     darklimb mapa = Ok (corrected, original) →
     ∀ i j, item (data corrected) i j = 0%Z) ∧
  (∀ n, square_frame mapa n →
        first_absent (meta mapa) = None →
        zero_pixel_scale (meta mapa) = false →
        ∃ corrected, darklimb mapa = Ok (corrected, mapa)).
Proof.
  intros Hmx Hr.
  assert (Hk : py_int (fmul (of_dec 1 (-4)) mx) = Ok 0%Z).
  { rewrite py_int_exact, multiplier_faint by done. done. }
  split; [exact Hk|]. split.
  - intros corrected original Hd i j.
    destruct (darklimb_Ok _ _ _ Hd)
      as (p & array & ul & vl & n & q & nmx & k
          & _ & _ & _ & _ & _ & _ & Hm & Hk' & _ & -> & _).
    rewrite np_nanmax_exact in Hm. assert (nmx = mx) as -> by congruence.
    assert (k = 0%Z) as -> by congruence.
    cbn. rewrite Z.mul_0_r. reflexivity.
  - intros n Hsq Hkeys Hscale.
    destruct (read_parameters_complete (meta mapa) Hkeys Hscale) as (p & Hp & Hs & _).
    destruct Hsq as [Hshape (s & Hs' & Hn)].
    assert (s = size p) as -> by congruence.
    destruct (darklimb_returns mapa p (amap (rescale mx) (data mapa))
                (polynomial u_coefficients (fmul (of_Z 1) (wavelength p)))
                (polynomial v_coefficients (fmul (of_Z 1) (wavelength p)))
                n mx 0%Z Hp)
      as (corrected & Hd & _);
      [ unfold rescaled; rewrite Hmx; done
      | apply darklimb_u_polynomial | apply darklimb_v_polynomial
      | done | done | rewrite np_nanmax_exact; done | done | lia | eauto ].
Qed.

(** *** The frame [faint] *)

Lemma Int_part_IZR (z : Z) : Int_part (IZR z) = z.
Proof.
  assert (IZR z <= IZR z < IZR (z + 1)) as Hb by (rewrite plus_IZR; lra).
  pose proof (Int_part_bounds _ _ _ Hb). lia.
Qed.

Lemma faint_frame : square_frame faint 1.
Proof.
  split; [reflexivity|]. exists 1. split; [reflexivity|].
  unfold arange_len. cbn [ftrunc fltb of_Z exact].
  rewrite R_trunc_nonneg by lra. rewrite (Int_part_IZR 1).
  destruct (Rlt_dec 1 1); [lra | reflexivity].
Qed.

Lemma faint_header :
  first_absent (meta faint) = None ∧ zero_pixel_scale (meta faint) = false.
Proof.
  split; [reflexivity|].
  unfold zero_pixel_scale.
  replace (meta faint !! "CDELT1") with (Some 2) by reflexivity.
  cbn [feqb of_Z exact]. destruct (Req_dec_T 2 0); [lra|].
  apply andb_false_r.
Qed.

Lemma faint_max : np_max (data faint) = Ok 5000.
Proof. reflexivity. Qed.

Lemma faint_returns : ∃ corrected, darklimb faint = Ok (corrected, faint).
Proof.
  destruct faint_header as [Hkeys Hscale].
  destruct (read_parameters_complete (meta faint) Hkeys Hscale) as (p & Hp & Hs & _).
  destruct faint_frame as [Hshape (s & Hs' & Hn)].
  assert (s = size p) as -> by congruence.
  destruct (darklimb_returns faint p (amap (rescale 5000) (data faint))
              (polynomial u_coefficients (fmul (of_Z 1) (wavelength p)))
              (polynomial v_coefficients (fmul (of_Z 1) (wavelength p)))
              1 5000 0%Z Hp)
    as (corrected & Hd & _);
    [ reflexivity | apply darklimb_u_polynomial | apply darklimb_v_polynomial
    | done | reflexivity
    | rewrite np_nanmax_exact; exact faint_max
    | rewrite py_int_exact, multiplier_faint by lra; done
    | lia
    | eauto ].
Qed.

Lemma faint_is_zeroed :
  0 < 5000 < 10000 ∧
  py_int (fmul (of_dec 1 (-4)) 5000) = Ok 0%Z ∧
  ∃ corrected, darklimb faint = Ok (corrected, faint) ∧
               ∀ i j, item (data corrected) i j = 0%Z.
Proof.
  assert (Hr : 0 < 5000 < 10000) by lra.
  destruct (faint_image_is_zeroed_exact faint 5000 faint_max Hr) as (Hk & Hz & Hret).
  split; [exact Hr|]. split; [exact Hk|].
  destruct (Hret 1%nat faint_frame (proj1 faint_header) (proj2 faint_header))
    as (corrected & Hd).
  exists corrected. split; [exact Hd|]. exact (Hz corrected faint Hd).
Qed.

End ExactProps.


(** ** Rounding of a product in binary64 *)

(** A fact about every [float64] cannot be evaluated.  It is proved from
    the specification that the library gives the primitive operations
    ([mul_spec], [ltb_spec], [Prim2SF_valid]): the product of two
    mantissas is shifted right and rounded to nearest, which [shr_inv]
    follows bit by bit. *)

Module Rounding.
Import Binary64 PrimFloat FloatOps SpecFloat FloatAxioms.
Local Open Scope Z_scope.

Lemma iter_pos_nat {A} (f : A -> A) (p : positive) (x : A) :
  iter_pos f p x = Nat.iter (Pos.to_nat p) f x.
Proof.
  revert x. induction p as [p IH|p IH|]; intros x; cbn [iter_pos].
  - rewrite !IH, Pos2Nat.inj_xI.
    replace (S (2 * Pos.to_nat p))%nat with (Pos.to_nat p + (Pos.to_nat p + 1))%nat by lia.
    rewrite !Nat.iter_add. reflexivity.
  - rewrite !IH, Pos2Nat.inj_xO.
    replace (2 * Pos.to_nat p)%nat with (Pos.to_nat p + Pos.to_nat p)%nat by lia.
    rewrite Nat.iter_add. reflexivity.
  - reflexivity.
Qed.

Lemma shr_inv_step (M : Z) (k : nat) (mrs : shr_record) :
  shr_inv M k mrs -> shr_inv M (S k) (shr_1 mrs).
Proof.
  destruct mrs as [m r s]. unfold shr_inv. cbn [shr_m shr_r shr_s].
  intros (Hm & t & Ht & HM & Hs).
  rewrite Nat2Z.inj_succ. unfold Z.succ.
  replace (Z.of_nat k + 1 + 1) with (Z.of_nat k + 2) by lia.
  rewrite Z.pow_add_r in * by lia.
  rewrite (Z.pow_add_r 2 (Z.of_nat k) 2) by lia.
  change (2 ^ 1) with 2 in *. change (2 ^ 2) with 4.
  set (a := 2 ^ Z.of_nat k) in *.
  assert (0 < a) by (apply Z.pow_pos_nonneg; lia).
  assert (Ht' : 0 <= (if r then a else 0) + t < a * 2) by (destruct r; lia).
  assert (Hs' : orb r s = false -> (if r then a else 0) + t = 0).
  { destruct r, s; cbn; try discriminate. intros _. rewrite Hs by reflexivity. lia. }
  destruct m as [|[p|p|]|p]; cbn [shr_1 shr_m shr_r shr_s]; try lia;
    (split; [lia|]; exists ((if r then a else 0) + t);
     split; [exact Ht'|]; split; [|exact Hs']; lia).
Qed.

Lemma shr_inv_iter (M : Z) (k : nat) :
  0 <= M -> shr_inv M k (Nat.iter k shr_1 (Build_shr_record M false false)).
Proof.
  intros HM. induction k as [|k IH].
  - unfold shr_inv. change (Nat.iter 0 shr_1 ?x) with x. cbn [shr_m shr_r shr_s].
    change (Z.of_nat 0) with 0. change (2 ^ (0 + 1)) with 2. change (2 ^ 0) with 1.
    split; [exact HM|]. exists 0. repeat split; lia.
  - rewrite Nat.iter_succ. apply shr_inv_step, IH.
Qed.

(** Rounding to nearest after a shift by [k >= 0] bits. *)
Lemma round_after_shift (M : Z) (k : nat) (mrs : shr_record) :
  shr_inv M k mrs ->
  let q := round_nearest_even (shr_m mrs) (loc_of_shr_record mrs) in
  0 <= q /\ 2 * q * 2 ^ Z.of_nat k <= 2 * M + 2 ^ Z.of_nat k.
Proof.
  destruct mrs as [m r s]. unfold shr_inv. cbn [shr_m shr_r shr_s].
  intros (Hm & t & Ht & HM & Hs).
  rewrite Z.pow_add_r in HM by lia. change (2 ^ 1) with 2 in HM.
  set (a := 2 ^ Z.of_nat k) in *.
  assert (0 < a) by (apply Z.pow_pos_nonneg; lia).
  destruct r, s; cbn [loc_of_shr_record round_nearest_even]; try (destruct (Z.even m)); split; nia.
Qed.

Lemma floor_after_shift (M : Z) (k : nat) (mrs : shr_record) :
  shr_inv M k mrs -> 0 <= shr_m mrs /\ shr_m mrs * 2 ^ Z.of_nat k <= M.
Proof.
  destruct mrs as [m r s]. unfold shr_inv. cbn [shr_m shr_r shr_s].
  intros (Hm & t & Ht & HM & Hs).
  rewrite Z.pow_add_r in HM by lia. change (2 ^ 1) with 2 in HM.
  set (a := 2 ^ Z.of_nat k) in *.
  assert (0 < a) by (apply Z.pow_pos_nonneg; lia).
  split; [lia|]. destruct r; nia.
Qed.

(** [shr] from an exact record. *)
Lemma shr_exact (m e n : Z) :
  0 <= m ->
  let '(mrs, e') := shr (Build_shr_record m false false) e n in
  let d := e' - e in
  (d = Z.max n 0) /\
  (0 <= shr_m mrs) /\ (shr_m mrs * 2 ^ d <= m) /\
  (0 <= round_nearest_even (shr_m mrs) (loc_of_shr_record mrs)) /\
  (2 * round_nearest_even (shr_m mrs) (loc_of_shr_record mrs) * 2 ^ d
   <= 2 * m + 2 ^ d).
Proof.
  intros Hm. unfold shr. destruct n as [|p|p].
  - replace (e - e) with 0 by lia. cbn. repeat split; lia.
  - rewrite iter_pos_nat.
    pose proof (shr_inv_iter m (Pos.to_nat p) Hm) as Hinv.
    replace (e + Z.pos p - e) with (Z.of_nat (Pos.to_nat p)) by lia.
    split; [lia|].
    pose proof (floor_after_shift _ _ _ Hinv) as Hf.
    pose proof (round_after_shift _ _ _ Hinv) as Hr. cbv zeta in Hr.
    tauto.
  - replace (e - e) with 0 by lia. cbn. repeat split; lia.
Qed.

(** A product that stays below 1 after its rounding is truncated to 0. *)
Lemma binary_round_aux_small (sx : bool) (M : positive) (E : Z) :
  E <= 0 ->
  2 * Zpos M + 2 ^ Z.max (fexp prec emax (Zdigits2 (Zpos M) + E) - E) 0 < 2 ^ (1 - E) ->
  SF_trunc (binary_round_aux prec emax sx (Zpos M) E loc_Exact) = Some 0.
Proof.
  intros HE Hsmall.
  unfold binary_round_aux, shr_fexp.
  pose proof (shr_exact (Zpos M) E (fexp prec emax (Zdigits2 (Z.pos M) + E) - E)) as H1.
  cbn [shr_record_of_loc] in *.
  destruct (shr _ E _) as [mrs1 e1].
  destruct H1 as (Hd1 & Hm1 & Hf1 & Hq1 & Hr1); [lia|].
  set (q1 := round_nearest_even (shr_m mrs1) (loc_of_shr_record mrs1)) in *.
  pose proof (shr_exact q1 e1 (fexp prec emax (Zdigits2 q1 + e1) - e1) Hq1) as H2.
  destruct (shr _ e1 _) as [mrs2 e2].
  destruct H2 as (Hd2 & Hm2 & Hf2 & _).
  rewrite <- Hd1 in Hsmall.
  assert (H01 : 0 <= e1 - E) by lia. assert (H12 : 0 <= e2 - e1) by lia.
  assert (Hpow : 2 ^ (e2 - E) = 2 ^ (e2 - e1) * 2 ^ (e1 - E)).
  { rewrite <- Z.pow_add_r by lia. f_equal. lia. }
  assert (Hone : 2 ^ (1 - E) = 2 * 2 ^ (- E)).
  { replace (1 - E) with (1 + - E) by lia. rewrite Z.pow_add_r by lia. reflexivity. }
  assert (Hp1 : 0 < 2 ^ (e1 - E)) by (apply Z.pow_pos_nonneg; lia).
  assert (Hp2 : 0 < 2 ^ (e2 - e1)) by (apply Z.pow_pos_nonneg; lia).
  assert (Hlt : shr_m mrs2 * 2 ^ (e2 - E) < 2 ^ (- E)) by nia.
  destruct (shr_m mrs2) as [|m2|m2] eqn:Hm; [reflexivity| |lia].
  assert (He2 : e2 < 0).
  { destruct (Z.lt_ge_cases e2 0) as [|Hge]; [assumption|exfalso].
    assert (2 ^ (- E) <= 2 ^ (e2 - E)) by (apply Z.pow_le_mono_r; lia).
    nia. }
  destruct (Z.leb_spec e2 (emax - prec)) as [_|Hbad]; [|unfold emax, prec in Hbad; lia].
  cbn [SF_trunc]. destruct (Z.leb_spec 0 e2); [lia|].
  assert (Hsplit : 2 ^ (- E) = 2 ^ (- e2) * 2 ^ (e2 - E)).
  { rewrite <- Z.pow_add_r by lia. f_equal. lia. }
  assert (0 < 2 ^ (e2 - E)) by (apply Z.pow_pos_nonneg; lia).
  rewrite Z.div_small; [destruct sx; reflexivity|]. nia.
Qed.

Lemma digits2_pos_size (p : positive) : digits2_pos p = Pos.size p.
Proof. induction p as [p IH|p IH|]; cbn; rewrite ?IH; reflexivity. Qed.

Lemma digits_lt_pow (p : positive) : Zpos p < 2 ^ Zpos (digits2_pos p).
Proof.
  rewrite digits2_pos_size. pose proof (Pos.size_gt p) as H.
  apply Pos2Z.pos_lt_pos in H. rewrite Pos2Z.inj_pow in H. exact H.
Qed.

Lemma digits_le (p : positive) (k : Z) :
  0 <= k -> Zpos p < 2 ^ k -> Zpos (digits2_pos p) <= k.
Proof.
  intros Hk Hp. rewrite digits2_pos_size. pose proof (Pos.size_le p) as H.
  apply Pos2Z.pos_le_pos in H. rewrite Pos2Z.inj_pow in H.
  change (Z.pos p~0) with (2 * Z.pos p) in H.
  assert (Hlt : 2 ^ Z.pos (Pos.size p) < 2 ^ (k + 1)).
  { rewrite (Z.pow_add_r 2 k 1) by lia. change (2 ^ 1) with 2. lia. }
  apply Z.pow_lt_mono_r_iff in Hlt; lia.
Qed.

Local Open Scope float_scope.

(** The multiplier of line 138 for a maximum between 0 and 1e4: the
    product [1e-4 * x], rounded to nearest, is below 1. *)
Lemma multiplier_of_faint_maximum (x : float) :
  (0 <? x) = true -> (x <? 10000) = true -> trunc (1e-4 * x) = Some 0%Z.
Proof.
  intros H0 H1. unfold trunc. rewrite mul_spec.
  rewrite ltb_spec in H0, H1.
  pose proof (Prim2SF_valid x) as Hv.
  change (Prim2SF 0) with (S754_zero false) in H0.
  change (Prim2SF 10000) with (S754_finite false 5497558138880000 (-39)) in H1.
  change (Prim2SF 1e-4) with (S754_finite false 7378697629483821 (-66)).
  destruct (Prim2SF x) as [s|s| |s m e]; try discriminate.
  - destruct s; discriminate.
  - destruct s; [discriminate|].
    unfold SF64mul, SFmul. cbn [xorb].
    unfold SpecFloat.valid_binary, bounded, canonical_mantissa in Hv.
    apply andb_prop in Hv as [Hc He]. apply Z.eqb_eq in Hc. apply Z.leb_le in He.
    unfold fexp, emin, prec, emax in Hc, He.
    pose proof (digits_lt_pow m) as Hm.
    assert (Hd : (Zpos (digits2_pos m) <= 53)%Z) by lia.
    assert (Hm53 : (Zpos m < 2 ^ 53)%Z).
    { eapply Z.lt_le_trans; [exact Hm|]. apply Z.pow_le_mono_r; lia. }
    assert (Hemin : (-1074 <= e)%Z) by lia.
    unfold SFltb, SFcompare in H1.
    assert (Hcase : (e <= -40 \/ (e = -39 /\ Zpos m < 5497558138880000))%Z).
    { destruct (Z.compare_spec e (-39)) as [->|Hlt|Hgt]; [right|left; lia|discriminate].
      split; [reflexivity|].
      destruct (Pos.compare_cont Eq m 5497558138880000) eqn:Hcmp; try discriminate.
      apply (proj1 (Pos.compare_lt_iff m 5497558138880000)) in Hcmp.
      apply Pos2Z.pos_lt_pos in Hcmp. exact Hcmp. }
    apply binary_round_aux_small; [lia|].
    assert (HM : (Zpos (7378697629483821 * m) < 2 ^ 106)%Z).
    { rewrite Pos2Z.inj_mul. change (2 ^ 106)%Z with (2 ^ 53 * 2 ^ 53)%Z. nia. }
    pose proof (digits_le _ 106 ltac:(lia) HM) as HdM.
    unfold fexp, emin, prec, emax, Zdigits2.
    set (dM := Zpos (digits2_pos (7378697629483821 * m))) in *.
    rewrite Pos2Z.inj_mul.
    destruct Hcase as [Hlo|[-> Hm0]].
    + assert (Hn : (Z.max (Z.max (dM + (-66 + e) - 53) (3 - 1024 - 53) - (-66 + e)) 0 <= 66)%Z) by lia.
      assert (Hp : (2 ^ Z.max (Z.max (dM + (-66 + e) - 53) (3 - 1024 - 53) - (-66 + e)) 0 <= 2 ^ 66)%Z)
        by (apply Z.pow_le_mono_r; lia).
      assert (Hq : (2 ^ 107 <= 2 ^ (1 - (-66 + e)))%Z) by (apply Z.pow_le_mono_r; lia).
      change (2 ^ 107)%Z with 162259276829213363391578010288128%Z in Hq.
      change (2 ^ 66)%Z with 73786976294838206464%Z in Hp.
      change (2 ^ 53)%Z with 9007199254740992%Z in Hm53.
      lia.
    + assert (Hn : (Z.max (Z.max (dM + (-66 + -39) - 53) (3 - 1024 - 53) - (-66 + -39)) 0 <= 53)%Z) by lia.
      assert (Hp : (2 ^ Z.max (Z.max (dM + (-66 + -39) - 53) (3 - 1024 - 53) - (-66 + -39)) 0 <= 2 ^ 53)%Z)
        by (apply Z.pow_le_mono_r; lia).
      change (2 ^ (1 - (-66 + -39)))%Z with 81129638414606681695789005144064%Z.
      change (2 ^ 53)%Z with 9007199254740992%Z in Hp.
      lia.
Qed.

End Rounding.

(** ** Facts of IEEE 754 arithmetic *)

(** What the specification of the primitive operations gives about nan,
    the infinities, signs and truncation, for every [float64]. *)

Module Ieee.
Import Binary64 Values PrimFloat FloatOps SpecFloat FloatAxioms.
Import QArith_base Qround.
Local Open Scope float_scope.

Lemma Prim2SF_nan (x : float) : is_nan x = true → Prim2SF x = S754_nan.
Proof. intros Hx. unfold Prim2SF. rewrite Hx. reflexivity. Qed.

Lemma is_nan_Prim2SF (x : float) : Prim2SF x = S754_nan → is_nan x = true.
Proof. intros Hx. rewrite <- (SF2Prim_Prim2SF x), Hx. reflexivity. Qed.

Lemma is_nan_spec (x : float) :
  is_nan x = match Prim2SF x with S754_nan => true | _ => false end.
Proof.
  destruct (is_nan x) eqn:Hn; [rewrite (Prim2SF_nan x Hn); reflexivity|].
  destruct (Prim2SF x) eqn:Hx; try reflexivity.
  rewrite (is_nan_Prim2SF x Hx) in Hn. discriminate.
Qed.

Lemma is_infinity_spec (x : float) :
  is_infinity x = match Prim2SF x with S754_infinity _ => true | _ => false end.
Proof.
  unfold is_infinity. rewrite FloatAxioms.eqb_spec, abs_spec.
  change (Prim2SF infinity) with (S754_infinity false).
  destruct (Prim2SF x) as [s|s| |s m e]; reflexivity.
Qed.

(** Truncation is defined on the finite values and on no other. *)
Lemma finite_spec (m : libm) (x : float) :
  finite (H:=binary64 m) x = is_finite x.
Proof.
  unfold finite, is_finite. cbn [ftrunc binary64]. unfold trunc.
  rewrite is_nan_spec, is_infinity_spec.
  destruct (Prim2SF x) as [s|s| |s e mx]; reflexivity.
Qed.

Lemma infinite_spec (m : libm) (x : float) :
  infinite (H:=binary64 m) x = is_infinity x.
Proof.
  unfold infinite. rewrite finite_spec. unfold is_finite.
  cbn [fisnan binary64]. rewrite is_nan_spec, is_infinity_spec.
  destruct (Prim2SF x) as [s|s| |s e mx]; reflexivity.
Qed.

(** Python's power in binary64. *)
Lemma py_pow_binary64 (m : libm) (x : float) (k : nat) :
  py_pow (H:=binary64 m) x k
  = if is_finite x && is_infinity (libm_pow m x k)
    then Raise OverflowError else Ok (libm_pow m x k).
Proof.
  unfold py_pow. rewrite finite_spec, infinite_spec. reflexivity.
Qed.

(** A quotient with an operand that is not a number is not a number. *)
Lemma div_nan_r (x y : float) : is_nan y = true → is_nan (x / y) = true.
Proof.
  intros Hy. apply is_nan_Prim2SF. rewrite div_spec, (Prim2SF_nan y Hy).
  unfold SF64div, SFdiv. destruct (Prim2SF x); reflexivity.
Qed.

Lemma div_nan_l (x y : float) : is_nan x = true → is_nan (x / y) = true.
Proof.
  intros Hx. apply is_nan_Prim2SF. rewrite div_spec, (Prim2SF_nan x Hx).
  reflexivity.
Qed.

(** *** Signs *)

(** A rounded value keeps the sign it is given. *)
Lemma binary_round_aux_nonneg (mx ex : Z) (lx : location) :
  SFltb (binary_round_aux prec emax false mx ex lx) (S754_zero false) = false.
Proof.
  unfold binary_round_aux.
  destruct (shr_fexp prec emax mx ex lx) as [mrs' e'].
  destruct (shr_fexp prec emax _ e' loc_Exact) as [mrs'' e''].
  destruct (shr_m mrs''); [reflexivity | | reflexivity].
  destruct (e'' <=? emax - prec)%Z; reflexivity.
Qed.

Lemma SFmul_nonneg (x y : spec_float) :
  SFltb (S754_zero false) x = true →
  SFltb y (S754_zero false) = false →
  SFltb (SFmul prec emax x y) (S754_zero false) = false.
Proof.
  destruct x as [sx|sx| |sx mx ex]; try discriminate;
    destruct sx; try discriminate;
    destruct y as [sy|sy| |sy my ey]; try reflexivity;
    destruct sy; try discriminate; try reflexivity.
  intros _ _. apply binary_round_aux_nonneg.
Qed.

Lemma SFdiv_nonneg (x y : spec_float) :
  SFltb x (S754_zero false) = false →
  SFltb (S754_zero false) y = true →
  SFltb (SFdiv prec emax x y) (S754_zero false) = false.
Proof.
  destruct y as [sy|sy| |sy my ey]; try discriminate;
    destruct sy; try discriminate;
    destruct x as [sx|sx| |sx mx ex]; try reflexivity;
    destruct sx; try discriminate; try reflexivity.
  intros _ _. unfold SFdiv.
  destruct (SFdiv_core_binary prec emax (Zpos mx) ex (Zpos my) ey) as [[mz ez] lz].
  apply binary_round_aux_nonneg.
Qed.

(** The product of a positive number and a number not below zero, and
    the quotient of a number not below zero by a positive number, are
    not below zero. *)
Lemma mul_nonneg (x y : float) :
  (0 <? x) = true → (y <? 0) = false → (x * y <? 0) = false.
Proof.
  rewrite !FloatAxioms.ltb_spec, mul_spec. change (Prim2SF 0) with (S754_zero false).
  apply SFmul_nonneg.
Qed.

Lemma div_nonneg (x y : float) :
  (x <? 0) = false → (0 <? y) = true → (x / y <? 0) = false.
Proof.
  rewrite !FloatAxioms.ltb_spec, div_spec. change (Prim2SF 0) with (S754_zero false).
  apply SFdiv_nonneg.
Qed.

(** A number not below zero is not below -10. *)
Lemma not_below_minus_ten (x : float) :
  (x <? 0) = false → (x <? -10) = false.
Proof.
  rewrite !FloatAxioms.ltb_spec. change (Prim2SF 0) with (S754_zero false).
  change (Prim2SF (-10)) with (S754_finite true 5629499534213120 (-49)).
  destruct (Prim2SF x) as [s|s| |s mx ex]; try reflexivity;
    destruct s; try discriminate; reflexivity.
Qed.

(** *** Truncation *)

(** The truncation of a finite value is the truncation towards zero of
    the rational number it stands for. *)
Lemma trunc_value (x : float) (t : Z) :
  trunc x = Some t → ∃ v, value x = Some v ∧ t = Qtrunc v.
Proof.
  unfold trunc, value.
  destruct (Prim2SF x) as [s|s| |s m e]; cbn [SF_trunc SF2Q]; try discriminate.
  - intros [= <-]. eexists. split; [reflexivity|]. reflexivity.
  - intros [= <-]. eexists. split; [reflexivity|].
    unfold Qtrunc, Qle_bool, Qceiling, Qfloor.
    destruct (Z.leb_spec 0 e) as [He|He].
    + assert (Hp : (0 < 2 ^ e)%Z) by (apply Z.pow_pos_nonneg; lia).
      assert (Ha : (0 < Zpos m * 2 ^ e)%Z) by lia.
      destruct s; cbn [Qopp inject_Z Qnum Qden].
      * destruct (Z.leb_spec (0 * 1) (- (Zpos m * 2 ^ e) * 1)); [lia|].
        rewrite Z.opp_involutive, Z.div_1_r. reflexivity.
      * destruct (Z.leb_spec (0 * 1) (Zpos m * 2 ^ e * 1)); [|lia].
        rewrite Z.div_1_r. reflexivity.
    + assert (Hp : (0 < 2 ^ (- e))%Z) by (apply Z.pow_pos_nonneg; lia).
      destruct s; cbn [Qopp inject_Z Qnum Qden].
      * destruct (Z.leb_spec (0 * Zpos (Z.to_pos (2 ^ (- e)))) (- Zpos m * 1)); [lia|].
        cbn [Z.opp]. rewrite Z2Pos.id by lia. reflexivity.
      * destruct (Z.leb_spec (0 * Zpos (Z.to_pos (2 ^ (- e)))) (Zpos m * 1)); [|lia].
        rewrite Z2Pos.id by lia. reflexivity.
Qed.

Lemma value_trunc (x : float) (v : Q) :
  value x = Some v → trunc x = Some (Qtrunc v).
Proof.
  intros Hv. destruct (trunc x) as [t|] eqn:Ht.
  - destruct (trunc_value x t Ht) as (v' & Hv' & ->). congruence.
  - unfold trunc, value in *.
    destruct (Prim2SF x); discriminate.
Qed.

Lemma Qfloor_range (v : Q) (hi : Z) :
  Qle (inject_Z 0) v → Qlt v (inject_Z hi) → (0 ≤ Qfloor v < hi)%Z.
Proof.
  intros H0 H1. pose proof (Qfloor_le v) as Hl. pose proof (Qlt_floor v) as Hu.
  split.
  - assert (Qlt (inject_Z 0) (inject_Z (Qfloor v + 1))) as H
      by (eapply Qle_lt_trans; eassumption).
    rewrite <- Zlt_Qlt in H. lia.
  - assert (Qlt (inject_Z (Qfloor v)) (inject_Z hi)) as H
      by (eapply Qle_lt_trans; eassumption).
    rewrite <- Zlt_Qlt in H. lia.
Qed.

(** The cast of a value in [0, 2^32) is its floor. *)
Lemma cast_uint32_floor (m : libm) (q : float) (v : Q) :
  value q = Some v → Qle (inject_Z 0) v → Qlt v (inject_Z (2 ^ 32)) →
  cast_uint32 (H:=binary64 m) q = Qfloor v.
Proof.
  intros Hv H0 H1. unfold cast_uint32. cbn [ftrunc binary64].
  rewrite (value_trunc q v Hv).
  assert (Ht : Qtrunc v = Qfloor v).
  { unfold Qtrunc. apply Qle_bool_iff in H0. rewrite H0. reflexivity. }
  rewrite Ht. pose proof (Qfloor_range v (2 ^ 32) H0 H1) as Hr.
  destruct (Z.leb_spec (- 2 ^ 63) (Qfloor v)); [|lia].
  destruct (Z.ltb_spec (Qfloor v) (2 ^ 63)); [|lia].
  cbn [andb]. apply Z.mod_small. lia.
Qed.

(** Zero divided by anything is a zero or nan: its cast is 0. *)
Lemma cast_zero_div (m : libm) (l : float) :
  cast_uint32 (H:=binary64 m) (0 / l) = 0%Z.
Proof.
  unfold cast_uint32. cbn [ftrunc binary64]. unfold trunc. rewrite div_spec.
  change (Prim2SF 0) with (S754_zero false).
  destruct (Prim2SF l) as [s|s| |s ml el]; reflexivity.
Qed.

End Ieee.

(** ** The binary64 reading *)

Module Binary64Props.
Import Binary64 Values Inputs PrimFloat.
Local Open Scope float_scope.

Lemma exact_points_exact : libm_exact exact_points.
Proof.
  split; [reflexivity | reflexivity |].
  intros x k Hx. cbn. rewrite Hx. reflexivity.
Qed.

Lemma exact_or_infinite_exact : libm_exact exact_or_infinite.
Proof.
  split; [reflexivity | reflexivity |].
  intros x k Hx. cbn. rewrite Hx. reflexivity.
Qed.

(** [round_dec] reads the literals of the program as the parser of
    floating-point literals does. *)
Lemma literals_are_nearest_doubles :
  [ round_dec (-89829751) (-7); round_dec 69093916 (-10);
    round_dec (-18144591) (-13); round_dec 22540875 (-17);
    round_dec (-13389747) (-21); round_dec 30453572 (-26);
    round_dec 92891180 (-7); round_dec (-62212632) (-10);
    round_dec 15788029 (-13); round_dec (-19359644) (-17);
    round_dec 11444469 (-21); round_dec (-2599494) (-25);
    round_dec 1 (-4); round_dec 10000 0; round_dec (-10) 0;
    round_dec 1 0; round_dec 0 0 ]
  = [ -8.9829751; 0.0069093916; -1.8144591e-6; 2.2540875e-10;
      -1.3389747e-14; 3.0453572e-19;
      9.2891180; -0.0062212632; 1.5788029e-6; -1.9359644e-10;
      1.1444469e-14; -2.599494e-19;
      1e-4; 1e4; -10; 1.0; 0 ].
Proof. vm_compute. reflexivity. Qed.

(** At the wavelength 1e70 the fifth power is beyond the largest float:
    a library that returns the infinity for it makes both coefficient
    functions raise. *)
Lemma darklimb_uv_1e70 (m : libm) :
  is_infinity (libm_pow m 1e70 5) = true →
  darklimb_u (H:=binary64 m) 1e70 = Raise OverflowError ∧
  darklimb_v (H:=binary64 m) 1e70 = Raise OverflowError.
Proof.
  intros H5. unfold darklimb_u, darklimb_v, powers.
  rewrite !Ieee.py_pow_binary64, H5.
  change (is_finite 1e70) with true. cbn [andb].
  destruct (is_infinity (libm_pow m 1e70 2)); [split; reflexivity|].
  destruct (is_infinity (libm_pow m 1e70 3)); [split; reflexivity|].
  destruct (is_infinity (libm_pow m 1e70 4)); split; reflexivity.
Qed.

Section Libm.
Context (m : libm) (exact_m : libm_exact m) (b64 := binary64 m : Float64 float).
Local Existing Instance b64.

(** The value of the formula on the disk centre, as rounded. *)
Lemma limb_centre_rounded (ul vl : float) :
  limb ul vl 0 = 1 - ul - vl + ul * 1 + vl * 1.
Proof.
  unfold limb, sq. cbn [fcos farcsin fadd fsub fmul of_Z b64 binary64].
  rewrite (arcsin_zero m exact_m), (cos_zero m exact_m). reflexivity.
Qed.

Lemma powers_171 :
  powers (1 * 171) = Ok [1; 171; 29241; 5000211; 855036081; 146211169851].
Proof.
  unfold powers. rewrite !(Ieee.py_pow_binary64 m).
  rewrite !(pow_exact m exact_m) by (vm_compute; reflexivity).
  vm_compute. reflexivity.
Qed.

Lemma darklimb_u_171 : darklimb_u (1 * 171) = Ok (-7.8534100478221314).
Proof. unfold darklimb_u. rewrite powers_171. vm_compute. reflexivity. Qed.

Lemma darklimb_v_171 : darklimb_v (1 * 171) = Ok 8.2704894927764663.
Proof. unfold darklimb_v. rewrite powers_171. vm_compute. reflexivity. Qed.

Lemma coefficients_171 :
  coefficients 171 = Ok (-7.8534100478221314, 8.2704894927764663).
Proof.
  unfold coefficients. change (fmul (of_Z 1) 171) with (1 * 171).
  cbv zeta. rewrite darklimb_u_171, darklimb_v_171. reflexivity.
Qed.

(** Off the disk the factor is the rounded sum [1 - u - v + u + v]. *)
Lemma limbfilt_off_disk_rounded (ul vl : float) (p : parameters) (n i j : nat) :
  (1 <? normalised_radius p i j) = true →
  item (limbfilt ul vl p n) i j = 1 - ul - vl + ul * 1 + vl * 1.
Proof.
  intros Hg.
  change (fltb (of_Z 1) (normalised_radius p i j) = true) in Hg.
  rewrite (limbfilt_off_disk ul vl p n i j Hg).
  change (of_Z 0) with 0. apply limb_centre_rounded.
Qed.

Lemma bright_parameters :
  read_parameters (meta bright) = Ok (Parameters 171 0 0 0.5 2 0 (-32768) 1).
Proof. vm_compute. reflexivity. Qed.

Lemma bright_off_disk :
  let p := Parameters 171 0 0 0.5 2 0 (-32768) 1 in
  (1 <? normalised_radius p 1 1) = true ∧
  item (limbfilt (-7.8534100478221314) 8.2704894927764663 p 2) 1 1
  = 0x1.ffffffffffff8p-1.
Proof.
  intros p. assert (Hg : (1 <? normalised_radius p 1 1) = true)
    by (vm_compute; reflexivity).
  split; [exact Hg|].
  rewrite (limbfilt_off_disk_rounded _ _ p 2 1 1 Hg). vm_compute. reflexivity.
Qed.


(** C10.  When the raw maximum is positive and less than 1e4, the
    multiplier [int(1e-4 * max)] is 0, in binary64 as well: the rounded
    product is below 1.  Every pixel of a corrected image that is
    returned is then 0.  On a frame of the data model with a complete
    header the call does return, unless the powers of the wavelength
    overflow: then it raises [OverflowError]. *)
Theorem faint_image_is_zeroed (mapa : GenericMap float float) (nmx : float) :
  np_nanmax (data mapa) = Ok nmx →
  (0 <? nmx) = true →
  (nmx <? 10000) = true →
  py_int (fmul (of_dec 1 (-4)) nmx) = Ok 0%Z ∧
  (∀ corrected original,
     darklimb mapa = Ok (corrected, original) →
     ∀ i j, item (data corrected) i j = 0%Z) ∧
  (∀ n w, square_frame mapa n →
        first_absent (meta mapa) = None →
        zero_pixel_scale (meta mapa) = false →
        meta mapa !! "WAVELNTH" = Some w →
        (∀ ul vl, coefficients w = Ok (ul, vl) →
                  ∃ corrected, darklimb mapa = Ok (corrected, mapa)) ∧
        (∀ e, coefficients w = Raise e →
              e = OverflowError ∧ darklimb mapa = Raise OverflowError)).
Proof.
  intros Hmax Hpos Hlt.
  assert (Hk : py_int (fmul (of_dec 1 (-4)) nmx) = Ok 0%Z).
  { unfold py_int. change (ftrunc (fmul (of_dec 1 (-4)) nmx)) with (trunc (1e-4 * nmx)).
    rewrite (Rounding.multiplier_of_faint_maximum nmx Hpos Hlt). reflexivity. }
  split; [exact Hk|]. split.
  - intros corrected original Hd i j.
    destruct (darklimb_Ok _ _ _ Hd)
      as (p & array & ul & vl & n & q & nmx' & k
          & _ & _ & _ & _ & _ & _ & Hm & Hk' & _ & -> & _).
    assert (nmx' = nmx) as -> by congruence.
    assert (k = 0%Z) as -> by congruence.
    cbn. rewrite Z.mul_0_r. reflexivity.
  - intros n w [Hshape (s & Hs & Hn)] Hkeys Hscale Hw.
    destruct (read_parameters_complete (meta mapa) Hkeys Hscale)
      as (p & Hp & Hsize & Hwp).
    assert (s = size p) as -> by congruence.
    assert (w = wavelength p) as -> by congruence.
    destruct (np_nanmax_Ok_max _ _ Hmax) as (mx & Hmx).
    split.
    + intros ul vl [Hul Hvl]%coefficients_Ok.
      destruct (darklimb_returns mapa p (amap (rescale mx) (data mapa)) ul vl
                  n nmx 0%Z)
        as (corrected & Hd & _);
        [ done | unfold rescaled; rewrite Hmx; reflexivity | done | done | done
        | done | done | done | lia | eauto ].
    + intros e He. destruct (coefficients_Raise _ _ He) as [-> _].
      split; [reflexivity|].
      apply (darklimb_overflow mapa p OverflowError Hp); [|exact He].
      rewrite Hmx. reflexivity.
Qed.

(** C7, as the code has it, in binary64 and for every C library.  A
    pixel of a result is the cast to [uint32] of the float64 quotient
    [scaled / limb], times the multiplier, modulo 2^32; the raw pixel
    and the factor are those that broadcasting pairs at its place, on a
    frame of the data model those of the same place.  The multiplier
    [int(1e-4 * nanmax(data))] is the truncation towards zero of the
    float64 product, a rounded number.  The cast of a quotient that
    stands for a number in [0, 2^32) is the floor of that number.  With
    the maximum and [limb] positive, the quotient is not below zero when
    the raw pixel is not below zero or is below -10. *)
Theorem corrected_pixel (mapa : GenericMap float float)
    (corrected : GenericMap Z float) (original : GenericMap float float) :
  darklimb mapa = Ok (corrected, original) →
  ∃ p ul vl n mx nmx k,
    read_parameters (meta mapa) = Ok p ∧
    coefficients (wavelength p) = Ok (ul, vl) ∧
    arange_len (size p) = Ok n ∧
    np_max (data mapa) = Ok mx ∧
    np_nanmax (data mapa) = Ok nmx ∧
    trunc (1e-4 * nmx) = Some k ∧
    (∃ v, value (1e-4 * nmx) = Some v ∧ k = Qtrunc v) ∧
    (0 ≤ k < 2 ^ 32)%Z ∧
    ∀ i j,
      let d := item (data mapa) (stretch (nrows (data mapa)) i)
                                (stretch (ncols (data mapa)) j) in
      let l := item (limbfilt ul vl p n) (stretch n i) (stretch n j) in
      let q := rescale mx d / l in
      item (data corrected) i j = ((cast_uint32 q * k) mod 2 ^ 32)%Z ∧
      (shape (data mapa) = (n, n) → (i < n)%nat → (j < n)%nat →
       d = item (data mapa) i j ∧ l = item (limbfilt ul vl p n) i j) ∧
      (∀ v, value q = Some v →
            QArith_base.Qle (QArith_base.inject_Z 0) v →
            QArith_base.Qlt v (QArith_base.inject_Z (2 ^ 32)) →
            cast_uint32 q = Qround.Qfloor v) ∧
      ((0 <? mx) = true → (0 <? l) = true →
       (d <? 0) = false ∨ (d <? -10) = true →
       (q <? 0) = false).
Proof.
  intros Hd.
  destruct (darklimb_Ok_items mapa corrected original Hd)
    as (p & ul & vl & n & mx & nmx & k
        & Hp & Hul & Hvl & Hn & Hmx & Hm & Hk & Hr & Hpix).
  assert (Ht : trunc (1e-4 * nmx) = Some k).
  { unfold py_int in Hk.
    change (ftrunc (fmul (of_dec 1 (-4)) nmx)) with (trunc (1e-4 * nmx)) in Hk.
    destruct (trunc (1e-4 * nmx)); [congruence | discriminate]. }
  exists p, ul, vl, n, mx, nmx, k.
  split; [exact Hp|].
  split; [exact (proj2 (coefficients_Ok (wavelength p) ul vl) (conj Hul Hvl))|].
  split; [exact Hn|]. split; [exact Hmx|]. split; [exact Hm|]. split; [exact Ht|].
  split; [exact (Ieee.trunc_value _ _ Ht)|]. split; [exact Hr|].
  intros i j d l q. split; [exact (Hpix i j)|]. split; [|split].
  - intros [= Hrows Hcols] Hi Hj. subst d l.
    rewrite Hrows, Hcols, !(stretch_lt n) by done. split; reflexivity.
  - intros v Hv H0 H1. exact (Ieee.cast_uint32_floor m q v Hv H0 H1).
  - intros Hpos Hl Hraw. subst q. unfold rescale.
    change (fltb d (of_Z (-10))) with (d <? -10).
    change (of_Z 0) with 0.
    change (fdiv (fmul (of_Z 10000) d) mx) with (10000 * d / mx).
    destruct (d <? -10) eqn:Hs.
    + apply Ieee.div_nonneg; [reflexivity | exact Hl].
    + destruct Hraw as [Hraw | Hraw]; [|discriminate].
      apply Ieee.div_nonneg; [|exact Hl].
      apply Ieee.div_nonneg; [|exact Hpos].
      apply Ieee.mul_nonneg; [reflexivity | exact Hraw].
Qed.

End Libm.

(** C1 as stated fails in binary64.  At wavelength 171 every C library
    that returns the exact values gives the off-disk pixel (1, 1) of a
    2 by 2 frame the factor 1 - 2^-50, not 1: the sum
    [1 - u - v + u + v] is rounded four times.  The division changes the
    rescaled intensity 5000 of that pixel. *)
Lemma off_disk_factor_not_one :
  libm_exact exact_points ∧
  ∀ m, libm_exact m →
    read_parameters (H:=binary64 m) (meta bright)
      = Ok (Parameters 171 0 0 0.5 2 0 (-32768) 1) ∧
    coefficients (H:=binary64 m) 171
      = Ok (-7.8534100478221314, 8.2704894927764663) ∧
    fltb (Float64:=binary64 m) 1
         (normalised_radius (H:=binary64 m) (Parameters 171 0 0 0.5 2 0 (-32768) 1) 1 1)
      = true ∧
    item (limbfilt (H:=binary64 m) (-7.8534100478221314) 8.2704894927764663
                   (Parameters 171 0 0 0.5 2 0 (-32768) 1) 2) 1 1
      = 0x1.ffffffffffff8p-1 ∧
    item (limbfilt (H:=binary64 m) (-7.8534100478221314) 8.2704894927764663
                   (Parameters 171 0 0 0.5 2 0 (-32768) 1) 2) 1 1
      ≠ 1 ∧
    elements <$> rescaled (H:=binary64 m) (data bright)
      = Ok [10000; 2500; 0; 5000] ∧
    5000 / 0x1.ffffffffffff8p-1 = 0x1.3880000000005p+12.
Proof.
  split; [exact exact_points_exact|]. intros m Hm.
  destruct (bright_off_disk m Hm) as [Hg Hl].
  split; [apply bright_parameters|]. split; [exact (coefficients_171 m Hm)|].
  split; [exact Hg|]. split; [exact Hl|].
  split; [rewrite Hl; discriminate|].
  split; vm_compute; reflexivity.
Qed.

(** C3 as stated fails: not every wavelength has coefficients.  The
    fifth power of the finite wavelength 1e70 is beyond the largest
    float; with a C library that returns the infinity for it, as every one
    does, line 68 raises [OverflowError], and so does a call of
    [darklimb] on a frame with that wavelength. *)
Lemma coefficients_overflow :
  is_finite 1e70 = true ∧
  power_overflows 1e70 5 = true ∧
  libm_exact exact_or_infinite ∧
  libm_pow exact_or_infinite 1e70 5 = infinity ∧
  ∀ m, is_infinity (libm_pow m 1e70 5) = true →
    darklimb_u (H:=binary64 m) 1e70 = Raise OverflowError ∧
    darklimb_v (H:=binary64 m) 1e70 = Raise OverflowError ∧
    coefficients (H:=binary64 m) 1e70 = Raise OverflowError ∧
    darklimb (H:=binary64 m) (Map (data bright) (header 1e70))
      = Raise OverflowError.
Proof.
  split; [reflexivity|]. split; [vm_compute; reflexivity|].
  split; [exact exact_or_infinite_exact|]. split; [vm_compute; reflexivity|].
  intros m H5. destruct (darklimb_uv_1e70 m H5) as [Hu Hv].
  assert (Hc : coefficients (H:=binary64 m) 1e70 = Raise OverflowError).
  { unfold coefficients.
    change (fmul (Float64:=binary64 m) (of_Z 1) 1e70) with 1e70.
    cbv zeta. rewrite Hu. reflexivity. }
  split; [exact Hu|]. split; [exact Hv|]. split; [exact Hc|].
  apply (darklimb_overflow (H:=binary64 m) (Map (data bright) (header 1e70))
           (Parameters 1e70 0 0 0.5 2 0 (-32768) 1) OverflowError);
    [vm_compute; reflexivity | vm_compute; reflexivity | exact Hc].
Qed.

Lemma bright_returns : is_Ok (darklimb (H:=binary64 exact_points) bright) = true.
Proof. vm_compute. reflexivity. Qed.



Lemma faint_image_is_zeroed_witness :
  np_nanmax (H:=binary64 exact_points) (data faint64) = Ok 5000 ∧
  py_int (H:=binary64 exact_points) (1e-4 * 5000) = Ok 0%Z ∧
  ∃ corrected,
    darklimb (H:=binary64 exact_points) faint64 = Ok (corrected, faint64) ∧
    ∀ i j, item (data corrected) i j = 0%Z.
Proof.
  assert (Hmax : np_nanmax (H:=binary64 exact_points) (data faint64) = Ok 5000)
    by (vm_compute; reflexivity).
  destruct (faint_image_is_zeroed exact_points faint64 5000 Hmax)
    as (Hk & Hz & Hret); [reflexivity | reflexivity |].
  split; [exact Hmax|]. split; [exact Hk|].
  destruct (Hret 2%nat 171) as [Hok _].
  - split; [reflexivity|]. exists 2. split; vm_compute; reflexivity.
  - vm_compute. reflexivity.
  - vm_compute. reflexivity.
  - vm_compute. reflexivity.
  - destruct (Hok _ _ (coefficients_171 exact_points exact_points_exact))
      as (corrected & Hd).
    exists corrected. split; [exact Hd|]. exact (Hz corrected faint64 Hd).
Defined.

Lemma bright_frame : square_frame (H:=binary64 exact_points) bright 2.
Proof. split; [reflexivity|]. exists 2. split; vm_compute; reflexivity. Qed.

Lemma corrected_pixel_witness :
  match darklimb (H:=binary64 exact_points) bright with
  | Ok (corrected, _) =>
      trunc (1e-4 * 20000) = Some 2%Z ∧
      item (data corrected) 0 0 = 20000%Z ∧
      item (data corrected) 0 1 = 5000%Z
  | Raise _ => False
  end.
Proof.
  destruct (darklimb (H:=binary64 exact_points) bright)
    as [[corrected original]|e] eqn:Hd.
  - destruct (corrected_pixel exact_points bright corrected original Hd)
      as (p & ul & vl & n & mx & nmx & k
          & Hp & Hc & Hn & Hmx & Hm & Hk & _ & _ & Hpix).
    rewrite bright_parameters in Hp. injection Hp as <-.
    change (coefficients (H:=binary64 exact_points) 171 = Ok (ul, vl)) in Hc.
    rewrite (coefficients_171 exact_points exact_points_exact) in Hc.
    injection Hc as <- <-.
    assert (n = 2%nat) as ->
      by (assert (arange_len (H:=binary64 exact_points) 2 = Ok 2%nat)
            by (vm_compute; reflexivity);
          change (arange_len (H:=binary64 exact_points) 2 = Ok n) in Hn;
          congruence).
    assert (mx = 20000) as ->
      by (assert (np_max (H:=binary64 exact_points) (data bright) = Ok 20000)
            by (vm_compute; reflexivity); congruence).
    assert (nmx = 20000) as ->
      by (assert (np_nanmax (H:=binary64 exact_points) (data bright) = Ok 20000)
            by (vm_compute; reflexivity); congruence).
    split; [vm_compute; reflexivity|].
    assert (k = 2%Z) as ->
      by (assert (trunc (1e-4 * 20000) = Some 2%Z) by (vm_compute; reflexivity);
          congruence).
    split.
    + rewrite (proj1 (Hpix 0%nat 0%nat)). vm_compute. reflexivity.
    + rewrite (proj1 (Hpix 0%nat 1%nat)). vm_compute. reflexivity.
  - pose proof bright_returns as Hr. rewrite Hd in Hr. discriminate Hr.
Defined.

(** C7 as stated fails, twice.  A raw pixel between -10 and 0 is
    rescaled to a negative value: the quotient is negative, and what its
    cast to [uint32] yields is not its truncation.  And the multiplier is
    not the floor of [max / 1e4]: for the maximum 29999.999999999996,
    the float before 30000, that floor is 2, but the product
    [1e-4 * max] is rounded to 3.0 before [int] truncates it, and the
    pixel of that maximum comes out as 30000, above the maximum. *)
Lemma quotient_can_be_negative :
  (elements (data with_negative) = [10000; -5; 0; 0] ∧
   elements <$> rescaled (H:=binary64 exact_points) (data with_negative)
     = Ok [10000; -5; 0; 0] ∧
   item (limbfilt (H:=binary64 exact_points)
                  (-7.8534100478221314) 8.2704894927764663
                  (Parameters 171 0 0 0.5 2 0 (-32768) 1) 2) 0 1
     = 0x1.ffffffffffff8p-1 ∧
   -5 / 0x1.ffffffffffff8p-1 = -0x1.4000000000005p+2 ∧
   (-0x1.4000000000005p+2 <? 0) = true ∧
   match darklimb (H:=binary64 exact_points) with_negative with
   | Ok (corrected, _) => elements (data corrected) = [10000; 4294967291; 0; 0]%Z
   | Raise _ => False
   end) ∧
  (np_nanmax (H:=binary64 exact_points) (data below_30000)
     = Ok 0x1.d4bffffffffffp+14 ∧
   (0x1.d4bffffffffffp+14 <? 30000) = true ∧
   (Qround.Qfloor <$> ((fun v => QArith_base.Qdiv v (QArith_base.inject_Z 10000))
                         <$> value 0x1.d4bffffffffffp+14)) = Some 2%Z ∧
   1e-4 * 0x1.d4bffffffffffp+14 = 3 ∧
   py_int (H:=binary64 exact_points) (1e-4 * 0x1.d4bffffffffffp+14) = Ok 3%Z ∧
   match darklimb (H:=binary64 exact_points) below_30000 with
   | Ok (corrected, _) => elements (data corrected) = [30000; 0; 0; 0]%Z
   | Raise _ => False
   end).
Proof.
  split.
  - split; [vm_compute; reflexivity|]. split; [vm_compute; reflexivity|].
    split; [vm_compute; reflexivity|]. split; [vm_compute; reflexivity|].
    split; vm_compute; reflexivity.
  - split; [vm_compute; reflexivity|]. split; [vm_compute; reflexivity|].
    split; [vm_compute; reflexivity|]. split; [vm_compute; reflexivity|].
    split; vm_compute; reflexivity.
Qed.

(** C5 as stated fails: with [CDELT1] zero the division of line 102
    raises before [BZERO] is found to be absent. *)
Lemma absent_key_without_KeyError :
  header_zero_scale !! "BZERO" = None ∧
  read_parameters (H:=binary64 exact_points) header_zero_scale
    = Raise ZeroDivisionError ∧
  darklimb (H:=binary64 exact_points) (Map (data bright) header_zero_scale)
    = Raise ZeroDivisionError.
Proof.
  split; [vm_compute; reflexivity|]. split; vm_compute; reflexivity.
Qed.

Lemma read_parameters_spec_witness :
  first_absent (delete "BLANK" (header 171)) = Some "BLANK" ∧
  darklimb (H:=binary64 exact_points)
           (Map (data bright) (delete "BLANK" (header 171)))
    = Raise (KeyError "BLANK").
Proof.
  split; [vm_compute; reflexivity|].
  apply (proj1 (read_parameters_spec (H:=binary64 exact_points)
                  (Map (data bright) (delete "BLANK" (header 171))))
               "BLANK");
    vm_compute; reflexivity.
Defined.

Lemma metadata_round_trip_witness :
  match darklimb (H:=binary64 exact_points) bright with
  | Ok (corrected, original) =>
      meta corrected !! "BZERO" = Some 0 ∧
      meta corrected !! "BLANK" = Some (-32768) ∧
      meta corrected !! "BSCALE" = Some 1 ∧
      original = bright
  | Raise _ => False
  end.
Proof.
  destruct (darklimb (H:=binary64 exact_points) bright)
    as [[corrected original]|e] eqn:Hd.
  - destruct (metadata_round_trip (H:=binary64 exact_points) bright _ _ Hd)
      as (Hz & Hb & Hs & _ & _ & _ & Ho).
    rewrite Hz, Hb, Hs. repeat split; [reflexivity..|exact Ho].
  - pose proof bright_returns as Hr. rewrite Hd in Hr. discriminate Hr.
Defined.

Lemma shape_invariance_witness :
  match darklimb (H:=binary64 exact_points) bright with
  | Ok (corrected, original) => shape (data corrected) = (2, 2)%nat
  | Raise _ => False
  end.
Proof.
  destruct (darklimb (H:=binary64 exact_points) bright)
    as [[corrected original]|e] eqn:Hd.
  - destruct (shape_invariance (H:=binary64 exact_points) bright
                corrected original Hd)
      as (s & n & Hs & Hn & _ & _ & Hsq & _).
    assert (s = 2) as ->
      by (assert (meta bright !! "NAXIS1" = Some 2) by (vm_compute; reflexivity);
          congruence).
    assert (n = 2%nat) as ->
      by (assert (arange_len (H:=binary64 exact_points) 2 = Ok 2%nat)
            by (vm_compute; reflexivity); congruence).
    exact (Hsq eq_refl).
  - pose proof bright_returns as Hr. rewrite Hd in Hr. discriminate Hr.
Defined.

(** C8 as stated fails: a frame of one row and two columns, in a header
    of frame dimension 2, comes out with two rows. *)
Lemma one_row_is_stretched :
  shape (data one_row) = (1, 2)%nat ∧
  match darklimb (H:=binary64 exact_points) one_row with
  | Ok (corrected, _) =>
      shape (data corrected) = (2, 2)%nat ∧
      shape (data corrected) ≠ shape (data one_row)
  | Raise _ => False
  end.
Proof.
  split; [reflexivity|].
  assert (Hs : match darklimb (H:=binary64 exact_points) one_row with
               | Ok (corrected, _) => shape (data corrected) = (2, 2)%nat
               | Raise _ => False
               end) by (vm_compute; reflexivity).
  destruct (darklimb (H:=binary64 exact_points) one_row) as [[corrected original]|e];
    [|exact Hs].
  split; [exact Hs|]. rewrite Hs. discriminate.
Qed.

End Binary64Props.

(** ** The two readings side by side *)

Module Readings.
Import Exact Binary64 Inputs PrimFloat.
Local Open Scope float_scope.

(** C3, as the code has it.  In exact arithmetic [darklimb_u] and
    [darklimb_v] return the polynomials of degree 5 of the table of
    section 4.2, for every wavelength.  In binary64 they raise
    [OverflowError] when the wavelength is finite and one of its powers
    is an infinity; otherwise they return the same sums with the nearest
    doubles of the table as coefficients, each product and each sum
    rounded, the terms added in increasing degree.  Both depend on the
    wavelength alone. *)
Theorem coefficients_are_polynomials :
  (∀ ll : R, darklimb_u (H:=exact) ll = Ok (polynomial u_coefficients ll) ∧
             darklimb_v (H:=exact) ll = Ok (polynomial v_coefficients ll)) ∧
  (∀ (m : libm) (ll : float),
     let pw := libm_pow m ll in
     let overflow :=
       is_finite ll && existsb (fun k => is_infinity (pw k)) [2; 3; 4; 5]%nat in
     darklimb_u (H:=binary64 m) ll
     = (if overflow then Raise OverflowError
        else Ok (0 + -8.9829751 * 1 + 0.0069093916 * ll + -1.8144591e-6 * pw 2%nat
                 + 2.2540875e-10 * pw 3%nat + -1.3389747e-14 * pw 4%nat
                 + 3.0453572e-19 * pw 5%nat)%float) ∧
     darklimb_v (H:=binary64 m) ll
     = (if overflow then Raise OverflowError
        else Ok (0 + 9.2891180 * 1 + -0.0062212632 * ll + 1.5788029e-6 * pw 2%nat
                 + -1.9359644e-10 * pw 3%nat + 1.1444469e-14 * pw 4%nat
                 + -2.599494e-19 * pw 5%nat)%float)).
Proof.
  split.
  - intros ll. split; [apply ExactProps.darklimb_u_polynomial | apply ExactProps.darklimb_v_polynomial].
  - intros m ll pw overflow. subst overflow pw.
    unfold darklimb_u, darklimb_v, powers. rewrite !Ieee.py_pow_binary64.
    cbn [existsb].
    destruct (is_finite ll); cbn [andb];
      [ destruct (is_infinity (libm_pow m ll 2)), (is_infinity (libm_pow m ll 3)),
                 (is_infinity (libm_pow m ll 4)), (is_infinity (libm_pow m ll 5)) |];
      cbn [orb]; split; vm_compute; reflexivity.
Qed.

(** C1, as the code has it.  Off the disk the factor is the formula at
    radius 0.  In exact arithmetic that is 1 for every wavelength; in
    binary64 it is the rounded sum [1 - u - v + u + v], one value for all
    the pixels off the disk, which rounding can move off 1. *)
Theorem off_disk_factor :
  (∀ (ul vl : R) (p : parameters) (n i j : nat),
     fltb (Float64:=exact) (of_Z 1) (normalised_radius p i j) = true →
     item (limbfilt (H:=exact) ul vl p n) i j = 1%R) ∧
  (∀ (m : libm) (ul vl : float) (p : parameters) (n i j : nat),
     libm_exact m →
     fltb (Float64:=binary64 m) 1 (normalised_radius (H:=binary64 m) p i j) = true →
     item (limbfilt (H:=binary64 m) ul vl p n) i j
     = (1 - ul - vl + ul * 1 + vl * 1)%float).
Proof.
  split.
  - intros ul vl p n i j Hg. rewrite (limbfilt_off_disk ul vl p n i j Hg).
    apply ExactProps.limb_centre.
  - intros m ul vl p n i j Hm Hg.
    apply (Binary64Props.limbfilt_off_disk_rounded m Hm ul vl p n i j Hg).
Qed.

Lemma off_disk_factor_witness :
  let p := Parameters 171 0 0 0.5 2 0 (-32768) 1 in
  fltb (Float64:=binary64 exact_points) 1
       (normalised_radius (H:=binary64 exact_points) p 1 1) = true ∧
  item (limbfilt (H:=binary64 exact_points)
                 (-7.8534100478221314) 8.2704894927764663 p 2) 1 1
  = (1 - -7.8534100478221314 - 8.2704894927764663
     + -7.8534100478221314 * 1 + 8.2704894927764663 * 1)%float.
Proof.
  intros p.
  assert (Hg : fltb (Float64:=binary64 exact_points) 1
                 (normalised_radius (H:=binary64 exact_points) p 1 1) = true)
    by (vm_compute; reflexivity).
  split; [exact Hg|].
  exact (proj2 off_disk_factor exact_points _ _ p 2%nat 1%nat 1%nat
               Binary64Props.exact_points_exact Hg).
Defined.

End Readings.

(** * Further properties of the program *)

(** ** File names *)

Lemma length_append (a b : string) :
  String.length (a +:+ b) = (String.length a + String.length b)%nat.
Proof.
  induction a as [|c a IH]; [done|].
  rewrite append_cons. cbn [String.length]. rewrite IH. done.
Qed.

Lemma prefix_length (old s : string) :
  String.prefix old s = true → (String.length old ≤ String.length s)%nat.
Proof.
  revert s. induction old as [|a old IH]; intros s Hp; [cbn; lia|].
  destruct s as [|b s]; [discriminate|].
  rewrite prefix_cons in Hp. destruct (Ascii.ascii_dec a b); [|discriminate].
  cbn [String.length]. apply IH in Hp. lia.
Qed.

Lemma prefix_append (old s t : string) :
  String.prefix old s = true → String.prefix old (s +:+ t) = true.
Proof.
  revert s. induction old as [|a old IH]; intros s Hp;
    [destruct (s +:+ t); reflexivity|].
  destruct s as [|b s]; [discriminate|].
  rewrite append_cons, prefix_cons in *.
  destruct (Ascii.ascii_dec a b); [|discriminate]. apply IH, Hp.
Qed.

Lemma replace_from_step (old new : string) (c : Ascii.ascii) (s : string) :
  replace_from old new 0 (String c s)
  = if String.prefix old (String c s)
    then new +:+ replace_from old new (String.length old - 1) s
    else String c (replace_from old new 0 s).
Proof. reflexivity. Qed.

Lemma count_from_step (old : string) (c : Ascii.ascii) (s : string) :
  count_from old 0 (String c s)
  = if String.prefix old (String c s)
    then S (count_from old (String.length old - 1) s)
    else count_from old 0 s.
Proof. reflexivity. Qed.

(** A name in which [old] does not occur is left as it is. *)
Lemma replace_from_absent (old new s : string) :
  contains old s = false → replace_from old new 0 s = s.
Proof.
  induction s as [|c s IH]; intros Hc; [done|].
  cbn [contains] in Hc. apply orb_false_elim in Hc as [Hp Hc].
  rewrite replace_from_step, Hp. f_equal. apply IH, Hc.
Qed.

Lemma count_from_present (old s : string) :
  old ≠ EmptyString →
  contains old s = true → (1 ≤ count_from old 0 s)%nat.
Proof.
  intros Hold. induction s as [|c s IH]; intros Hc.
  - cbn in Hc. rewrite orb_false_r in Hc. destruct old; [done | discriminate].
  - cbn [contains] in Hc. rewrite count_from_step.
    destruct (String.prefix old (String c s)); [lia|]. apply IH, Hc.
Qed.

(** Every replacement trades the length of [old] for that of [new]. *)
Lemma replace_from_length (old new : string) (k : nat) (s : string) :
  old ≠ EmptyString →
  (String.length (replace_from old new k s) + Nat.min k (String.length s)
     + count_from old k s * String.length old
   = String.length s + count_from old k s * String.length new)%nat.
Proof.
  intros Hold. revert k. induction s as [|c s IH]; intros k.
  - cbn. lia.
  - destruct k as [|k].
    + rewrite replace_from_step, count_from_step.
      destruct (String.prefix old (String c s)) eqn:Hp.
      * apply prefix_length in Hp. cbn [String.length] in Hp.
        rewrite length_append. specialize (IH (String.length old - 1)%nat).
        assert (0 < String.length old)%nat by (destruct old; [done | cbn; lia]).
        cbn [String.length]. lia.
      * specialize (IH 0%nat). cbn [String.length]. lia.
    + specialize (IH k). cbn [replace_from count_from String.length]. lia.
Qed.

(** An appended [.fits] is replaced whatever precedes it. *)
Lemma replace_from_append_fits (s : string) (k : nat) :
  (k ≤ String.length s)%nat →
  replace_from ".fits" "_noLimbDark.fits" k (s +:+ ".fits")
  = replace_from ".fits" "_noLimbDark.fits" k s +:+ "_noLimbDark.fits".
Proof.
  revert k. induction s as [|c s IH]; intros k Hk.
  - cbn in Hk. replace k with 0%nat by lia. reflexivity.
  - rewrite append_cons. destruct k as [|k].
    + rewrite !replace_from_step.
      destruct (String.prefix ".fits" (String c s)) eqn:Hp.
      * rewrite <- append_cons, (prefix_append _ _ _ Hp).
        apply prefix_length in Hp. cbn [String.length] in Hp.
        rewrite IH by (cbn; lia).
        generalize (replace_from ".fits" "_noLimbDark.fits"
                      (String.length ".fits" - 1) s).
        intros r. reflexivity.
      * rewrite <- append_cons, prefix_fits_app by done.
        rewrite IH by lia. reflexivity.
    + cbn [replace_from]. apply IH. cbn [String.length] in Hk. lia.
Qed.

(** X1.  A name in which [.fits] does not occur (a [.fit] or [.FITS]
    file, say) is not changed: [writefits] stores the image under the
    given name itself, over the file of that name. *)
Theorem writefits_without_fits {A} (image : A) (name : string)
    (files : gmap string A) :
  contains ".fits" name = false →
  writefits image name files = Ok (name, <[name := image]> files).
Proof.
  intros Hc. unfold writefits, str_replace, replace.
  rewrite (replace_from_absent _ _ _ Hc).
  unfold save. cbn. destruct (files !! name); reflexivity.
Qed.

Lemma writefits_without_fits_witness :
  writefits 7%nat "img.FITS" {["img.FITS" := 1%nat]}
  = Ok ("img.FITS", <["img.FITS" := 7%nat]> {["img.FITS" := 1%nat]}).
Proof. apply (writefits_without_fits 7%nat "img.FITS"). reflexivity. Defined.

(** X2.  A name in which [.fits] occurs is changed: the new name is
    longer by 11 characters for every occurrence, so it is never the
    given name, and the file of the given name is left as it was. *)
Theorem writefits_renames {A} (image : A) (name : string)
    (files : gmap string A) :
  contains ".fits" name = true →
  ∃ fname files',
    writefits image name files = Ok (fname, files') ∧
    (1 ≤ count_from ".fits" 0 name)%nat ∧
    String.length fname
    = (String.length name + 11 * count_from ".fits" 0 name)%nat ∧
    fname ≠ name ∧
    files' !! fname = Some image ∧
    files' !! name = files !! name.
Proof.
  intros Hc.
  pose proof (count_from_present ".fits" name ltac:(done) Hc) as Hn.
  pose proof (replace_from_length ".fits" "_noLimbDark.fits" 0 name) as Hl.
  cbn [String.length] in Hl. rewrite Nat.min_0_l in Hl.
  assert (Hne : replace_from ".fits" "_noLimbDark.fits" 0 name ≠ name).
  { intros He. rewrite He in Hl. specialize (Hl ltac:(done)). lia. }
  exists (replace_from ".fits" "_noLimbDark.fits" 0 name),
         (<[replace_from ".fits" "_noLimbDark.fits" 0 name := image]> files).
  split.
  { unfold writefits, str_replace, replace, save. cbn.
    destruct (files !! _); reflexivity. }
  split; [exact Hn|]. split; [specialize (Hl ltac:(done)); lia|].
  split; [exact Hne|]. split; [apply lookup_insert_eq|].
  apply lookup_insert_ne. exact Hne.
Qed.

Lemma writefits_renames_witness :
  ∃ fname files',
    writefits 7%nat "a.fits.d/b.fits" {["a.fits.d/b.fits" := 1%nat]}
    = Ok (fname, files') ∧
    String.length fname = (15 + 11 * 2)%nat ∧
    files' !! "a.fits.d/b.fits" = Some 1%nat.
Proof.
  destruct (writefits_renames 7%nat "a.fits.d/b.fits"
              {["a.fits.d/b.fits" := 1%nat]} eq_refl)
    as (fname & files' & Hw & _ & Hl & _ & _ & Hf).
  exists fname, files'. split; [exact Hw|]. split; [exact Hl | exact Hf].
Defined.

(** X3.  A name that ends in [.fits] gets a name that ends in
    [_noLimbDark.fits], whatever precedes the suffix: the new name is the
    replacement in what precedes, followed by the marker suffix. *)
Theorem writefits_marker_suffix {A} (image : A) (base : string)
    (files : gmap string A) :
  fst <$> writefits image (base +:+ ".fits") files
  = Ok (str_replace ".fits" "_noLimbDark.fits" base +:+ "_noLimbDark.fits").
Proof.
  unfold writefits, str_replace, replace.
  rewrite (replace_from_append_fits base 0) by lia.
  unfold save. cbn. destruct (files !! _); reflexivity.
Qed.

(** ** Edges of [darklimb], in every reading *)

Section Edges.
Context {F : Type} `{Float64 F}.

Lemma elements_empty {A} (a : ndarray A) :
  nrows a = 0%nat ∨ ncols a = 0%nat → elements a = [].
Proof.
  unfold elements. intros [-> | ->]; [done|].
  induction (seq 0 (nrows a)) as [|i l IH]; [done | exact IH].
Qed.

Lemma elements_In {A} (a : ndarray A) (x : A) :
  In x (elements a)
  ↔ ∃ i j, (i < nrows a)%nat ∧ (j < ncols a)%nat ∧ item a i j = x.
Proof.
  unfold elements. rewrite in_flat_map. split.
  - intros (i & Hi%in_seq & (j & Hj & Hin%in_seq)%in_map_iff).
    exists i, j. repeat split; (lia || done).
  - intros (i & j & Hi & Hj & Hx). exists i. split; [apply in_seq; lia|].
    apply in_map_iff. exists j. split; [done | apply in_seq; lia].
Qed.

Lemma np_max_Ok (a : ndarray F) :
  (0 < nrows a)%nat → (0 < ncols a)%nat →
  ∃ x l, elements a = x :: l ∧ np_max a = Ok (fold_left maximum l x).
Proof.
  intros Hr Hc. pose proof (elements_nonempty a Hr Hc) as Hne.
  unfold np_max. destruct (elements a) as [|x l]; [done | eauto].
Qed.

Lemma broadcast_dim_None (m n : nat) :
  m ≠ n → m ≠ 1%nat → n ≠ 1%nat → broadcast_dim m n = None.
Proof.
  intros H1 H2 H3. unfold broadcast_dim.
  destruct (Nat.eqb_spec m n); [done|]. destruct (Nat.eqb_spec m 1); [done|].
  destruct (Nat.eqb_spec n 1); done.
Qed.

Lemma broadcast_dim_one (n : nat) : broadcast_dim 1 n = Some n.
Proof.
  unfold broadcast_dim. destruct (Nat.eqb_spec 1 n); [congruence | done].
Qed.

(** X5.  A frame without pixels: with a complete header the call
    raises [ValueError], from [np.max] of line 110. *)
Theorem darklimb_empty_grid (mapa : GenericMap F F) :
  first_absent (meta mapa) = None →
  zero_pixel_scale (meta mapa) = false →
  nrows (data mapa) = 0%nat ∨ ncols (data mapa) = 0%nat →
  darklimb mapa = Raise ValueError.
Proof.
  intros Hkeys Hscale He.
  destruct (read_parameters_complete (meta mapa) Hkeys Hscale) as (p & Hp & _).
  unfold darklimb. rewrite Hp. cbn.
  unfold rescaled, np_max. rewrite (elements_empty _ He). reflexivity.
Qed.


(** X7.  A frame of one row is not rejected: a call that returns has
    stretched it to the [n] rows of the filter, [n] the frame dimension.
    Row [i] of the result is the one row of the frame divided by row [i]
    of the filter. *)
Theorem darklimb_one_row (mapa : GenericMap F F) (naxis1 : F) (n : nat)
    (corrected : GenericMap Z F) (original : GenericMap F F) :
  shape (data mapa) = (1%nat, n) →
  meta mapa !! "NAXIS1" = Some naxis1 →
  arange_len naxis1 = Ok n →
  darklimb mapa = Ok (corrected, original) →
  shape (data corrected) = (n, n) ∧
  ∃ p ul vl mx nmx k,
    read_parameters (meta mapa) = Ok p ∧
    coefficients (wavelength p) = Ok (ul, vl) ∧
    np_max (data mapa) = Ok mx ∧
    np_nanmax (data mapa) = Ok nmx ∧
    py_int (fmul (of_dec 1 (-4)) nmx) = Ok k ∧
    ∀ i j, (i < n)%nat → (j < n)%nat →
      item (data corrected) i j
      = ((cast_uint32 (fdiv (rescale mx (item (data mapa) 0 j))
                            (item (limbfilt ul vl p n) i j)) * k) mod 2 ^ 32)%Z.
Proof.
  intros [= Hrows Hcols] Hs Hn Hd.
  destruct (darklimb_Ok _ _ _ Hd)
    as (p & array & ul & vl & n' & q & nmx & k
        & Hp & Ha & Hul & Hvl & Hn' & Hq & Hm & Hk & _ & -> & _).
  pose proof Hp as Hp'.
  apply read_parameters_Ok in Hp'
    as (r & c & _ & _ & _ & _ & _ & _ & _ & Hs' & _).
  assert (n' = n) as -> by congruence.
  apply rescaled_Ok in Ha as (mx & Hmx & ->).
  unfold broadcast in Hq.
  change (nrows (amap (rescale mx) (data mapa))) with (nrows (data mapa)) in Hq.
  change (ncols (amap (rescale mx) (data mapa))) with (ncols (data mapa)) in Hq.
  change (nrows (limbfilt ul vl p n)) with n in Hq.
  change (ncols (limbfilt ul vl p n)) with n in Hq.
  rewrite Hrows, Hcols, broadcast_dim_one, broadcast_dim_same in Hq.
  injection Hq as <-.
  split; [reflexivity|].
  exists p, ul, vl, mx, nmx, k.
  split; [exact Hp|].
  split; [exact (proj2 (coefficients_Ok (wavelength p) ul vl) (conj Hul Hvl))|].
  repeat split; try done.
  intros i j Hi Hj. cbn [data item amap].
  rewrite !(stretch_lt n) by done. reflexivity.
Qed.

(** X9.  The pixels depend on the header through [WAVELNTH], [CRPIX1],
    [CRPIX2], [RSUN_OBS], [CDELT1] and [NAXIS1] only: on one grid, two
    complete headers that agree on these six keys give the same pixels,
    or the same exception.  The values of [BZERO], [BLANK] and [BSCALE],
    and every other entry, do not enter. *)
Theorem darklimb_header_dependence (d : ndarray F) (head head' : gmap string F) :
  Forall (fun key => head !! key = head' !! key) geometry_keys →
  first_absent head = None → first_absent head' = None →
  match darklimb (Map d head), darklimb (Map d head') with
  | Ok (c, _), Ok (c', _) => data c = data c'
  | Raise e, Raise e' => e = e'
  | _, _ => False
  end.
Proof.
  intros Hk Ha Ha'. unfold geometry_keys in Hk.
  apply Forall_cons in Hk as [Hw Hk]. apply Forall_cons in Hk as [Hx Hk].
  apply Forall_cons in Hk as [Hy Hk]. apply Forall_cons in Hk as [Hr Hk].
  apply Forall_cons in Hk as [Hc Hk]. apply Forall_cons in Hk as [Hs _].
  unfold first_absent, required_keys, absent in Ha, Ha'.
  cbn [List.find] in Ha, Ha'.
  unfold darklimb, read_parameters, getitem, py_truediv. cbn [meta data].
  rewrite <- Hw, <- Hx, <- Hy, <- Hr, <- Hc, <- Hs in *.
  destruct (head !! "WAVELNTH") as [w|]; [|discriminate].
  destruct (head !! "CRPIX1") as [x|]; [|discriminate].
  destruct (head !! "CRPIX2") as [y|]; [|discriminate].
  destruct (head !! "RSUN_OBS") as [r|]; [|discriminate].
  destruct (head !! "CDELT1") as [c|]; [|discriminate].
  destruct (head !! "NAXIS1") as [s|]; [|discriminate].
  destruct (head !! "BZERO") as [bz|]; [|discriminate].
  destruct (head !! "BLANK") as [bl|]; [|discriminate].
  destruct (head !! "BSCALE") as [bs|]; [|discriminate].
  destruct (head' !! "BZERO") as [bz'|]; [|discriminate].
  destruct (head' !! "BLANK") as [bl'|]; [|discriminate].
  destruct (head' !! "BSCALE") as [bs'|]; [|discriminate].
  cbn -[limbfilt restore_scaling darklimb_u darklimb_v].
  destruct (feqb c (of_Z 0)); [exact eq_refl|].
  cbn -[limbfilt restore_scaling darklimb_u darklimb_v].
  destruct (rescaled d) as [array|e]; [|exact eq_refl].
  cbn -[limbfilt restore_scaling darklimb_u darklimb_v].
  destruct (darklimb_u (fmul (of_Z 1) w)) as [ul|e]; [|exact eq_refl].
  cbn -[limbfilt restore_scaling darklimb_u darklimb_v].
  destruct (darklimb_v (fmul (of_Z 1) w)) as [vl|e]; [|exact eq_refl].
  cbn -[limbfilt restore_scaling darklimb_u darklimb_v].
  destruct (arange_len s) as [n|e]; [|exact eq_refl].
  cbn -[limbfilt restore_scaling].
  change (limbfilt ul vl (Parameters w x y (fdiv r c) s bz' bl' bs') n)
    with (limbfilt ul vl (Parameters w x y (fdiv r c) s bz bl bs) n).
  destruct (broadcast fdiv array
              (limbfilt ul vl (Parameters w x y (fdiv r c) s bz bl bs) n)) as [q|e];
    [|exact eq_refl].
  cbn -[limbfilt restore_scaling].
  destruct (np_nanmax d) as [nmx|e]; [|exact eq_refl].
  cbn -[limbfilt restore_scaling].
  destruct (py_int (fmul (of_dec 1 (-4)) nmx)) as [k|e]; [|exact eq_refl].
  cbn -[limbfilt restore_scaling].
  destruct (imul_uint32 (amap cast_uint32 q) k) as [img|e]; exact eq_refl.
Qed.

Lemma maximum_nan_l (a b : F) : fisnan a = true → maximum a b = a.
Proof. intros Ha. unfold maximum. rewrite Ha. reflexivity. Qed.

Lemma maximum_nan_r (a b : F) : fisnan b = true → fisnan (maximum a b) = true.
Proof.
  intros Hb. unfold maximum. destruct (fisnan a) eqn:Ha; [done|].
  rewrite Hb. done.
Qed.

Lemma maximum_not_nan (a b : F) :
  fisnan a = false → fisnan b = false → fisnan (maximum a b) = false.
Proof.
  intros Ha Hb. unfold maximum. rewrite Ha, Hb. destruct (fltb a b); done.
Qed.

Lemma fold_maximum_nan (l : list F) (x : F) :
  fisnan x = true → fold_left maximum l x = x.
Proof.
  intros Hx. induction l as [|y l IH]; [done|].
  cbn. rewrite maximum_nan_l by done. exact IH.
Qed.

Lemma fold_maximum_In_nan (l : list F) (x y : F) :
  In y (x :: l) → fisnan y = true → fisnan (fold_left maximum l x) = true.
Proof.
  revert x. induction l as [|z l IH]; intros x Hin Hy.
  - destruct Hin as [-> | []]. exact Hy.
  - cbn [fold_left]. destruct Hin as [-> | [-> | Hin]].
    + rewrite maximum_nan_l, fold_maximum_nan by done. exact Hy.
    + rewrite fold_maximum_nan by (apply maximum_nan_r; done).
      apply maximum_nan_r. exact Hy.
    + apply IH; [right; exact Hin | exact Hy].
Qed.

Lemma fold_maximum_not_nan (l : list F) (x : F) :
  fisnan x = false → (∀ y, In y l → fisnan y = false) →
  fisnan (fold_left maximum l x) = false.
Proof.
  revert x. induction l as [|z l IH]; intros x Hx Hl; [exact Hx|].
  cbn [fold_left]. apply IH.
  - apply maximum_not_nan; [exact Hx | apply Hl; left; done].
  - intros y Hy. apply Hl. right. exact Hy.
Qed.

Lemma np_max_nan (a : ndarray F) (i j : nat) :
  (i < nrows a)%nat → (j < ncols a)%nat → fisnan (item a i j) = true →
  ∃ x, np_max a = Ok x ∧ fisnan x = true.
Proof.
  intros Hi Hj Hn.
  assert (Hin : In (item a i j) (elements a))
    by (apply elements_In; exists i, j; done).
  unfold np_max. destruct (elements a) as [|x l]; [destruct Hin|].
  eexists. split; [reflexivity|]. exact (fold_maximum_In_nan l x _ Hin Hn).
Qed.

Lemma np_nanmax_number (a : ndarray F) (i j : nat) :
  (i < nrows a)%nat → (j < ncols a)%nat → fisnan (item a i j) = false →
  ∃ y, np_nanmax a = Ok y ∧ fisnan y = false.
Proof.
  intros Hi Hj Hn.
  assert (Hin : In (item a i j) (elements a))
    by (apply elements_In; exists i, j; done).
  unfold np_nanmax. destruct (elements a) as [|x l]; [destruct Hin|].
  assert (Hf : In (item a i j) (List.filter (fun y => negb (fisnan y)) (x :: l)))
    by (apply filter_In; rewrite Hn; done).
  pose proof (fun y => proj1 (filter_In (fun y => negb (fisnan y)) y (x :: l)))
    as Hall.
  destruct (List.filter _ (x :: l)) as [|y l']; [destruct Hf|].
  eexists. split; [reflexivity|].
  apply fold_maximum_not_nan.
  - destruct (Hall y (or_introl eq_refl)) as [_ Hy].
    destruct (fisnan y); done.
  - intros z Hz. destruct (Hall z (or_intror Hz)) as [_ Hy].
    destruct (fisnan z); done.
Qed.

(** X10.  The two reductions of the raw grid differ on a pixel that is
    not a number: [np.max], line 110, gives nan as soon as one pixel is
    nan, and [np.nanmax], line 138, a number as soon as one pixel is. *)
Theorem nan_pixel_reductions (a : ndarray F) (i j : nat) :
  (i < nrows a)%nat → (j < ncols a)%nat →
  (fisnan (item a i j) = true →
   ∃ x, np_max a = Ok x ∧ fisnan x = true) ∧
  (fisnan (item a i j) = false →
   ∃ y, np_nanmax a = Ok y ∧ fisnan y = false).
Proof.
  intros Hi Hj. split; [apply np_max_nan | apply np_nanmax_number]; done.
Qed.


End Edges.

(** ** Edges of [darklimb] in the exact reading *)

Module ExactEdges.
Import Exact Inputs Samples ExactProps.
Local Open Scope R_scope.

Lemma maximum_Rmax (a b : R) : maximum a b = Rmax a b.
Proof.
  unfold maximum, Rmax. cbn [fisnan fltb exact].
  destruct (Rlt_dec a b), (Rle_dec a b); lra.
Qed.

(** The fold of [np.max] ends on an element that no element exceeds. *)
Lemma fold_maximum_bounds (l : list R) (x : R) :
  x <= fold_left maximum l x
  ∧ (∀ y, In y l → y <= fold_left maximum l x)
  ∧ In (fold_left maximum l x) (x :: l).
Proof.
  revert x. induction l as [|z l IH]; intros x.
  - cbn. split; [lra|]. split; [tauto | left; done].
  - cbn [fold_left]. destruct (IH (maximum x z)) as (Hx & Hl & Hin).
    rewrite maximum_Rmax in Hx, Hin.
    pose proof (Rmax_l x z). pose proof (Rmax_r x z).
    split; [rewrite maximum_Rmax; lra|]. split.
    + intros y [<- | Hy]; [rewrite maximum_Rmax; lra | apply Hl, Hy].
    + rewrite maximum_Rmax.
      destruct Hin as [Hm | Hin]; [|right; right; exact Hin].
      rewrite <- Hm. unfold Rmax. destruct (Rle_dec x z); [right; left | left]; done.
Qed.

Lemma np_max_is_maximum (d : ndarray R) (mx : R) :
  np_max d = Ok mx →
  (∃ i j, (i < nrows d)%nat ∧ (j < ncols d)%nat ∧ item d i j = mx)
  ∧ ∀ i j, (i < nrows d)%nat → (j < ncols d)%nat → item d i j <= mx.
Proof.
  unfold np_max. intros Hmx.
  pose proof (elements_In d) as Hel.
  destruct (elements d) as [|x l]; [discriminate|]. injection Hmx as <-.
  destruct (fold_maximum_bounds l x) as (Hx & Hl & Hin). split.
  - apply Hel, Hin.
  - intros i j Hi Hj.
    assert (Hd : In (item d i j) (x :: l)) by (apply Hel; exists i, j; done).
    destruct Hd as [<- | Hd]; [exact Hx | apply Hl, Hd].
Qed.



Lemma grid_item (p : parameters) (n i j : nat) :
  item (grid p n) i j = clamp (normalised_radius p i j).
Proof. reflexivity. Qed.

Lemma radial_distance_nonneg (xc yc x y : R) : 0 <= radial_distance xc yc x y.
Proof. unfold radial_distance. cbn [fsqrt exact]. apply sqrt_pos. Qed.

(** X12.  With a positive radius every pixel of [grid] after line 128
    is in [0, 1], inside the domain of [arcsin], as the comment of that
    line intends. *)
Theorem grid_in_arcsin_domain (p : parameters) (n i j : nat) :
  0 < radius p → 0 <= item (grid p n) i j <= 1.
Proof.
  intros Hr. rewrite grid_item. unfold normalised_radius.
  pose proof (radial_distance_nonneg (xcen p) (ycen p)
                (of_Z (Z.of_nat j)) (of_Z (Z.of_nat i))) as Hz.
  set (z := radial_distance _ _ _ _) in *.
  assert (Hg : 0 <= fdiv z (radius p)).
  { cbn [fdiv exact]. apply Rmult_le_pos; [exact Hz|].
    left. apply Rinv_0_lt_compat, Hr. }
  destruct (Rle_or_lt (fdiv z (radius p)) 1) as [Hle|Hgt].
  - rewrite clamp_inside by done. lra.
  - rewrite clamp_outside by done. lra.
Qed.

Lemma grid_in_arcsin_domain_witness :
  0 <= item (grid (Parameters 6173 0 0 (1 / 2) 2 0 (-32768) 1) 2) 1 1 <= 1.
Proof.
  apply (grid_in_arcsin_domain (Parameters 6173 0 0 (1 / 2) 2 0 (-32768) 1)).
  cbn [radius]. lra.
Defined.

(** X13.  With a negative radius, which a negative [CDELT1] gives, a
    pixel farther from the centre than the radius is long has a
    normalised radius below -1, and line 127 leaves it there: outside
    the domain of [arcsin]. *)
Theorem grid_negative_radius (p : parameters) (n i j : nat) :
  radius p < 0 →
  - radius p < radial_distance (xcen p) (ycen p)
                 (IZR (Z.of_nat j)) (IZR (Z.of_nat i)) →
  item (grid p n) i j = normalised_radius p i j ∧ item (grid p n) i j < -1.
Proof.
  intros Hr Hz. rewrite grid_item. unfold normalised_radius.
  cbn [of_Z exact]. set (z := radial_distance _ _ _ _) in *.
  assert (Hg : fdiv z (radius p) < -1).
  { cbn [fdiv exact]. unfold Rdiv.
    assert (Hinv : 0 < / - radius p) by (apply Rinv_0_lt_compat; lra).
    replace (/ radius p) with (- / - radius p)
      by (rewrite Rinv_opp; ring).
    assert (1 < z * / - radius p).
    { replace 1 with (- radius p * / - radius p) by (apply Rinv_r; lra).
      apply Rmult_lt_compat_r; done. }
    lra. }
  rewrite clamp_inside by lra. split; [reflexivity | exact Hg].
Qed.

Lemma grid_negative_radius_witness :
  item (grid negative_radius 4) 0 2 < -1.
Proof.
  assert (Hr : radius negative_radius < 0) by (cbn [radius negative_radius]; lra).
  assert (Hz : - radius negative_radius
               < radial_distance (xcen negative_radius) (ycen negative_radius)
                   (IZR (Z.of_nat 2)) (IZR (Z.of_nat 0))).
  { change (- -1 < sqrt ((2 - 0) * (2 - 0) + (0 - 0) * (0 - 0))).
    replace ((2 - 0) * (2 - 0) + (0 - 0) * (0 - 0)) with (2 * 2) by ring.
    rewrite sqrt_square by lra. lra. }
  exact (proj2 (grid_negative_radius negative_radius 4 0 2 Hr Hz)).
Defined.

Lemma sqrt_unit (g : R) :
  0 <= g <= 1 →
  0 <= sqrt (1 - g * g) <= 1 ∧ sqrt (1 - g * g) * sqrt (1 - g * g) = 1 - g * g.
Proof.
  intros Hg. assert (H0 : 0 <= 1 - g * g) by nra.
  pose proof (sqrt_pos (1 - g * g)) as Hs.
  pose proof (sqrt_sqrt _ H0) as Hss.
  split; [|exact Hss]. split; [exact Hs|]. nra.
Qed.

(** X14.  For coefficients with [0 <= u] and [0 <= u + 2 v], as they
    are at the wavelength 6173 of the HMI continuum, the factor lies
    between [1 - u - v] and 1 at every radius; when moreover [u + v < 1]
    it is positive, and the division of line 134 is by a number that is
    not zero. *)
Theorem factor_bounds (ul vl g : R) :
  0 <= ul → 0 <= ul + 2 * vl → 0 <= g →
  1 - ul - vl <= factor ul vl g <= 1 ∧
  (ul + vl < 1 → 0 < factor ul vl g).
Proof.
  intros Hu Hv Hg.
  assert (Hb : 1 - ul - vl <= factor ul vl g <= 1).
  { destruct (Rle_or_lt g 1) as [Hle|Hgt].
    - rewrite factor_inside by lra. unfold inside.
      destruct (sqrt_unit g (conj Hg Hle)) as ([H0 H1] & Hss).
      remember (sqrt (1 - g * g)) as c eqn:Hc. rewrite <- Hss. clear Hc Hss.
      assert (Hlo : 0 <= c * (ul + vl * c)).
      { apply Rmult_le_pos; [lra|]. destruct (Rle_or_lt 0 vl); nra. }
      assert (Hhi : 0 <= (1 - c) * (ul + vl * (1 + c))).
      { apply Rmult_le_pos; [lra|]. destruct (Rle_or_lt 0 vl); nra. }
      nra.
    - rewrite factor_outside by done. lra. }
  split; [exact Hb | intros; lra].
Qed.

Lemma hmi_coefficients_range :
  ∃ ul vl, darklimb_u 6173 = Ok ul ∧ darklimb_v 6173 = Ok vl ∧
           0 <= ul ∧ 0 <= ul + 2 * vl ∧ ul + vl < 1.
Proof.
  exists (polynomial u_coefficients 6173), (polynomial v_coefficients 6173).
  split; [apply darklimb_u_polynomial|]. split; [apply darklimb_v_polynomial|].
  cbv [polynomial polynomial_from u_coefficients v_coefficients]. lra.
Qed.

Lemma factor_bounds_witness :
  ∃ ul vl, darklimb_u 6173 = Ok ul ∧ darklimb_v 6173 = Ok vl ∧
           0 < factor ul vl (1 / 2).
Proof.
  destruct hmi_coefficients_range as (ul & vl & Hul & Hvl & Hu & Hv & Huv).
  exists ul, vl. split; [exact Hul|]. split; [exact Hvl|].
  assert (Hg : 0 <= 1 / 2) by lra.
  exact (proj2 (factor_bounds ul vl (1 / 2) Hu Hv Hg) Huv).
Defined.

(** X15.  For such coefficients the factor does not increase from the
    centre of the disk to its edge: the correction, a division by it,
    brightens a pixel the more the nearer it is to the limb. *)
Theorem factor_decreasing (ul vl g g' : R) :
  0 <= ul → 0 <= ul + 2 * vl → 0 <= g → g <= g' → g' <= 1 →
  factor ul vl g' <= factor ul vl g.
Proof.
  intros Hu Hv H0 Hle H1.
  rewrite !factor_inside by lra. unfold inside.
  destruct (sqrt_unit g ltac:(lra)) as ([Ha0 Ha1] & Haa).
  destruct (sqrt_unit g' ltac:(lra)) as ([Hb0 Hb1] & Hbb).
  assert (Hs : sqrt (1 - g' * g') <= sqrt (1 - g * g)) by (apply sqrt_le_1_alt; nra).
  remember (sqrt (1 - g * g)) as a eqn:Ha.
  remember (sqrt (1 - g' * g')) as b eqn:Hb.
  rewrite <- Haa, <- Hbb. clear Ha Hb Haa Hbb.
  assert (Hf : 0 <= (a - b) * (ul + vl * (a + b))).
  { apply Rmult_le_pos; [lra|]. destruct (Rle_or_lt 0 vl); nra. }
  nra.
Qed.

Lemma factor_decreasing_witness :
  ∃ ul vl, darklimb_u 6173 = Ok ul ∧ darklimb_v 6173 = Ok vl ∧
           factor ul vl 1 <= factor ul vl (1 / 2).
Proof.
  destruct hmi_coefficients_range as (ul & vl & Hul & Hvl & Hu & Hv & _).
  exists ul, vl. split; [exact Hul|]. split; [exact Hvl|].
  assert (H0 : 0 <= 1 / 2) by lra. assert (H1 : 1 / 2 <= 1) by lra.
  exact (factor_decreasing ul vl (1 / 2) 1 Hu Hv H0 H1 (Rle_refl 1)).
Defined.

Lemma limbfilt_centre (ul vl : R) (p : parameters) (n i j : nat) :
  xcen p = IZR (Z.of_nat j) → ycen p = IZR (Z.of_nat i) →
  item (limbfilt ul vl p n) i j = 1.
Proof.
  intros Hx Hy. rewrite limbfilt_item.
  assert (Hz : normalised_radius p i j = 0).
  { unfold normalised_radius, radial_distance, sq.
    cbn [fdiv fsqrt fadd fsub fmul of_Z exact]. rewrite Hx, Hy.
    replace ((IZR (Z.of_nat j) - IZR (Z.of_nat j))
             * (IZR (Z.of_nat j) - IZR (Z.of_nat j))
             + (IZR (Z.of_nat i) - IZR (Z.of_nat i))
               * (IZR (Z.of_nat i) - IZR (Z.of_nat i))) with 0 by ring.
    rewrite sqrt_0. unfold Rdiv. ring. }
  rewrite Hz. unfold factor. rewrite clamp_inside by lra. apply limb_centre.
Qed.

(** X16.  The centre of the disk is the pixel of row index [CRPIX2] and
    column index [CRPIX1], both counted from 0: it is the only pixel at
    normalised radius 0, and its factor is 1, whatever the coefficients. *)
Theorem centre_pixel (ul vl : R) (p : parameters) (n i j : nat) :
  radius p ≠ 0 →
  (normalised_radius p i j = 0
   ↔ xcen p = IZR (Z.of_nat j) ∧ ycen p = IZR (Z.of_nat i)) ∧
  (xcen p = IZR (Z.of_nat j) → ycen p = IZR (Z.of_nat i) →
   item (limbfilt ul vl p n) i j = 1).
Proof.
  intros Hr.
  assert (Hiff : normalised_radius p i j = 0
                 ↔ xcen p = IZR (Z.of_nat j) ∧ ycen p = IZR (Z.of_nat i)).
  { unfold normalised_radius, radial_distance, sq.
    cbn [fdiv fsqrt fadd fsub fmul of_Z exact].
    set (x := IZR (Z.of_nat j) - xcen p). set (y := IZR (Z.of_nat i) - ycen p).
    assert (Hs : 0 <= x * x + y * y) by nra.
    split.
    - intros Hz. unfold Rdiv in Hz.
      apply Rmult_integral in Hz as [Hz | Hz];
        [|exfalso; exact (Rinv_neq_0_compat _ Hr Hz)].
      apply sqrt_eq_0 in Hz; [|exact Hs].
      assert (x = 0) by nra. assert (y = 0) by nra. subst x y. lra.
    - intros [Hx Hy].
      replace x with 0 by (subst x; lra). replace y with 0 by (subst y; lra).
      replace (0 * 0 + 0 * 0) with 0 by ring. rewrite sqrt_0. unfold Rdiv. ring. }
  split; [exact Hiff | apply limbfilt_centre].
Qed.

Lemma centre_pixel_witness :
  item (limbfilt (8 / 10) (- (2 / 10))
                 (Parameters 6173 1 0 (1 / 2) 2 0 (-32768) 1) 2) 0 1 = 1.
Proof.
  assert (Hr : radius (Parameters 6173 1 0 (1 / 2) 2 0 (-32768) 1) ≠ 0)
    by (cbn [radius]; lra).
  exact (proj2 (centre_pixel (8 / 10) (- (2 / 10))
                  (Parameters 6173 1 0 (1 / 2) 2 0 (-32768) 1)
                  2 0 1 Hr) eq_refl eq_refl).
Defined.


Lemma blank_pixel_frame : square_frame blank_pixel 1.
Proof.
  destruct faint_frame as [_ (s & Hs & Hn)].
  split; [reflexivity|]. exists s. split; [exact Hs | exact Hn].
Qed.

Lemma blank_pixel_multiplier : py_int (fmul (of_dec 1 (-4)) (-50)) = Ok 0%Z.
Proof.
  rewrite py_int_exact. f_equal.
  assert (Hx : fmul (of_dec 1 (-4)) (-50) = - (5 / 1000))
    by (cbn [fmul of_dec exact]; norm_dec; lra).
  rewrite Hx. unfold R_trunc. destruct (Rle_dec 0 (- (5 / 1000))); [lra|].
  rewrite Ropp_involutive, Int_part_small by lra. reflexivity.
Qed.

Lemma blank_pixel_returns :
  ∃ corrected, darklimb blank_pixel = Ok (corrected, blank_pixel).
Proof.
  destruct faint_header as [Hkeys Hscale].
  destruct (read_parameters_complete (meta blank_pixel) Hkeys Hscale)
    as (p & Hp & Hs & _).
  destruct blank_pixel_frame as [Hshape (s & Hs' & Hn)].
  assert (s = size p) as -> by congruence.
  destruct (darklimb_returns blank_pixel p
              (amap (rescale (-50)) (data blank_pixel))
              (polynomial u_coefficients (fmul (of_Z 1) (wavelength p)))
              (polynomial v_coefficients (fmul (of_Z 1) (wavelength p)))
              1 (-50) 0%Z)
    as (corrected & Hd & _);
    [ done | reflexivity | apply darklimb_u_polynomial
    | apply darklimb_v_polynomial | done | reflexivity
    | rewrite np_nanmax_exact; reflexivity
    | exact blank_pixel_multiplier
    | lia
    | eauto ].
Qed.


End ExactEdges.

(** ** Edges of [darklimb] in binary64 *)

Module Binary64Edges.
Import Binary64 Inputs Samples PrimFloat FloatOps SpecFloat FloatAxioms.
Local Open Scope float_scope.

Section Libm.
Context (m : libm) (b64 := binary64 m : Float64 float).
Local Existing Instance b64.

(** X19.  In binary64, whatever the C library: when one pixel of the
    raw grid is not a number, [np.max] is nan, and line 110 turns every
    pixel into nan, the pixels below -10 apart, which line 112 sets to
    0.  The quotient of line 134 is nan at each of these pixels, whatever
    the factor. *)
Theorem nan_pixel_spoils_frame (d : ndarray float) (i0 j0 : nat) :
  (i0 < nrows d)%nat → (j0 < ncols d)%nat →
  fisnan (item d i0 j0) = true →
  ∃ mx,
    np_max d = Ok mx ∧ fisnan mx = true ∧
    rescaled d = Ok (amap (rescale mx) d) ∧
    ∀ i j,
      (fltb (item d i j) (of_Z (-10)) = true →
       rescale mx (item d i j) = of_Z 0) ∧
      (fltb (item d i j) (of_Z (-10)) = false →
       fisnan (rescale mx (item d i j)) = true ∧
       ∀ l, fisnan (fdiv (rescale mx (item d i j)) l) = true).
Proof.
  intros Hi Hj Hn.
  destruct (np_max_nan d i0 j0 Hi Hj Hn) as (mx & Hmx & Hnan).
  exists mx. split; [exact Hmx|]. split; [exact Hnan|].
  split; [unfold rescaled; rewrite Hmx; reflexivity|].
  intros i j. unfold rescale. split; intros Hlt; rewrite Hlt; [reflexivity|].
  cbn [fisnan fdiv fmul b64 binary64] in *.
  split; [apply Ieee.div_nan_r, Hnan|].
  intros l. apply Ieee.div_nan_l, Ieee.div_nan_r, Hnan.
Qed.

(** X21.  In binary64, whatever the C library: on a frame of the data
    model, a pixel below -10 comes out as 0, whatever the factor at its
    place and whatever the multiplier.  Line 112 has set it to 0, and 0
    divided by the factor is a zero, or nan when the factor is zero or
    nan; the cast of either is 0. *)
Theorem blank_pixels_come_out_zero (mapa : GenericMap float float) (n : nat)
    (corrected : GenericMap Z float) (original : GenericMap float float)
    (i j : nat) :
  square_frame mapa n →
  darklimb mapa = Ok (corrected, original) →
  (i < n)%nat → (j < n)%nat →
  (item (data mapa) i j <? -10) = true →
  item (data corrected) i j = 0%Z.
Proof.
  intros Hsq Hd Hi Hj Hlt.
  destruct (darklimb_Ok_pixels mapa n corrected original Hsq Hd)
    as (p & ul & vl & mx & nmx & k & _ & _ & _ & _ & _ & _ & _ & Hpix).
  rewrite (Hpix i j Hi Hj). unfold rescale.
  change (fltb (item (data mapa) i j) (of_Z (-10)))
    with (item (data mapa) i j <? -10).
  rewrite Hlt. change (of_Z 0) with 0.
  change (fdiv 0 (item (limbfilt ul vl p n) i j))
    with (0 / item (limbfilt ul vl p n) i j).
  rewrite (Ieee.cast_zero_div m). reflexivity.
Qed.

End Libm.

Lemma nan_pixel_spoils_frame_witness :
  ∃ mx, np_max (H:=binary64 exact_points) (data with_nan) = Ok mx ∧
        is_nan mx = true ∧
        is_nan (rescale (H:=binary64 exact_points) mx (item (data with_nan) 0 0))
        = true.
Proof.
  destruct (nan_pixel_spoils_frame exact_points (data with_nan) 0 1)
    as (mx & Hmx & Hnan & _ & Hpix);
    [vm_compute; lia | vm_compute; lia | reflexivity |].
  exists mx. split; [exact Hmx|]. split; [exact Hnan|].
  assert (Hge : @fltb float (binary64 exact_points) (item (data with_nan) 0 0)
                      (@of_Z float (binary64 exact_points) (-10)) = false)
    by (vm_compute; reflexivity).
  exact (proj1 (proj2 (Hpix 0%nat 0%nat) Hge)).
Defined.

Lemma with_nan_returns :
  is_Ok (darklimb (H:=binary64 exact_points) with_nan) = true.
Proof. vm_compute. reflexivity. Qed.

Lemma blank_pixels_come_out_zero_witness :
  item (data with_nan) 1 0 = -50 ∧
  match darklimb (H:=binary64 exact_points) with_nan with
  | Ok (corrected, _) => item (data corrected) 1 0 = 0%Z
  | Raise _ => False
  end.
Proof.
  split; [reflexivity|].
  destruct (darklimb (H:=binary64 exact_points) with_nan)
    as [[corrected original]|e] eqn:Hd.
  - apply (blank_pixels_come_out_zero exact_points with_nan 2 corrected original
             1 0);
      [ split; [reflexivity|]; exists 2; split; vm_compute; reflexivity
      | exact Hd | lia | lia | reflexivity ].
  - pose proof with_nan_returns as Hr. rewrite Hd in Hr. discriminate Hr.
Defined.

Lemma nan_pixel_reductions_witness :
  (∃ x, np_max (H:=binary64 exact_points) (data with_nan) = Ok x
        ∧ is_nan x = true) ∧
  (∃ y, np_nanmax (H:=binary64 exact_points) (data with_nan) = Ok y
        ∧ is_nan y = false).
Proof.
  split.
  - apply (proj1 (nan_pixel_reductions (H:=binary64 exact_points)
                    (data with_nan) 0 1 ltac:(vm_compute; lia)
                    ltac:(vm_compute; lia))).
    reflexivity.
  - apply (proj2 (nan_pixel_reductions (H:=binary64 exact_points)
                    (data with_nan) 0 0 ltac:(vm_compute; lia)
                    ltac:(vm_compute; lia))).
    reflexivity.
Defined.

Lemma darklimb_empty_grid_witness :
  darklimb (H:=binary64 exact_points) no_pixels = Raise ValueError.
Proof.
  apply (darklimb_empty_grid (H:=binary64 exact_points) no_pixels);
    [vm_compute; reflexivity | vm_compute; reflexivity | left; reflexivity].
Defined.


Lemma one_row_returns : is_Ok (darklimb (H:=binary64 exact_points) one_row) = true.
Proof. vm_compute. reflexivity. Qed.

Lemma darklimb_one_row_witness :
  shape (data one_row) = (1, 2)%nat ∧
  match darklimb (H:=binary64 exact_points) one_row with
  | Ok (corrected, _) => shape (data corrected) = (2, 2)%nat
  | Raise _ => False
  end.
Proof.
  split; [reflexivity|].
  destruct (darklimb (H:=binary64 exact_points) one_row)
    as [[corrected original]|e] eqn:Hd.
  - apply (darklimb_one_row (H:=binary64 exact_points) one_row 2 2%nat
             corrected original);
      [reflexivity | vm_compute; reflexivity | vm_compute; reflexivity | exact Hd].
  - pose proof one_row_returns as Hr. rewrite Hd in Hr. discriminate Hr.
Defined.

Lemma darklimb_header_dependence_witness :
  header 171 !! "BZERO" ≠ header_rescaled 171 !! "BZERO" ∧
  match darklimb (H:=binary64 exact_points) (Map (data bright) (header 171)),
        darklimb (H:=binary64 exact_points) (Map (data bright) (header_rescaled 171))
  with
  | Ok (c, _), Ok (c', _) => data c = data c'
  | Raise e, Raise e' => e = e'
  | _, _ => False
  end.
Proof.
  split; [vm_compute; discriminate|].
  apply (darklimb_header_dependence (H:=binary64 exact_points));
    [|vm_compute; reflexivity | vm_compute; reflexivity].
  repeat (apply List.Forall_cons; [vm_compute; reflexivity|]).
  apply List.Forall_nil.
Defined.


End Binary64Edges.
